(** * element-api: the identifier cache and the paginated request engine

    A shallow embedding of [element/element_api.py] (class [ElementApi]).
    The client is a Python object holding an API location, an API key and a
    two-level dictionary used as a cache; its methods talk to a remote
    server with [urllib.request.urlopen] and decode the answers with
    [json.load].

    - Python data coming back from [json.load] is the inductive type
      [value]; subscripting, [.get], iteration, truthiness and formatting
      are written out with the exceptions Python raises.  JSON numbers are
      integers here (floats are outside the model) and text is ASCII.
    - Python dictionaries keep insertion order, and the reversed view of
      the cache depends on it, so dictionaries are association lists
      ([odict]) whose [set] overwrites in place or appends.
    - Methods are computations in a state-and-exception monad [M]: the
      state is the client object, the state of the remote world and the log
      of every request sent.
    - The [while] loop of [_make_req] need not terminate (a server may hand
      out continuation tokens for ever), so it is driven by fuel: one unit
      per continuation request. *)

From Stdlib Require Import ZArith String Ascii List Bool Lia DecimalString
  DecimalZ.
Import ListNotations.
Open Scope string_scope.
Open Scope Z_scope.

Set Implicit Arguments.

(** ** Python values and exceptions *)

#[warnings="-register-all"]
Inductive value : Type :=
| VNone
| VBool (b : bool)
| VInt (n : Z)
| VStr (s : string)
| VList (l : list value)
| VDict (kvs : list (string * value)).

Inductive exn_class : Type :=
| KeyError | IndexError | AttributeError | TypeError | ValueError.

(** [Builtin c]: raised by the interpreter or a builtin (message not
    modelled); [Raised c msg]: a [raise] statement of the source;
    [Transport d]: whatever [urlopen] or [json.load] raised. *)
Inductive exn : Type :=
| Builtin (c : exn_class)
| Raised (c : exn_class) (msg : string)
| Transport (detail : string).

Definition exn_is (c : exn_class) (e : exn) : Prop :=
  match e with
  | Builtin c' | Raised c' _ => c' = c
  | Transport _ => False
  end.

(** The result of running a piece of Python: a value, an exception, or
    no answer within the fuel given. *)
Inductive outcome (A : Type) : Type :=
| Ret (a : A)
| Raise (e : exn)
| OutOfFuel.

Arguments Ret {A} a.
Arguments Raise {A} e.
Arguments OutOfFuel {A}.

(** sequencing of steps that may raise *)
Definition and_then {A B} (o : outcome A) (f : A -> outcome B) : outcome B :=
  match o with
  | Ret a => f a
  | Raise e => Raise e
  | OutOfFuel => OutOfFuel
  end.

(** ** Keys: decidable equality for dictionary keys *)

Class Key (K : Type) : Type := {
  keqb : K -> K -> bool;
  keqb_eq : forall x y, keqb x y = true <-> x = y
}.

(** Hashable Python values as they compare inside a [dict]: [True == 1]
    and [False == 0] hash alike, so booleans are the integers 1 and 0. *)
Inductive pykey : Type :=
| KNone
| KInt (n : Z)
| KStr (s : string).

Definition pykey_eqb (a b : pykey) : bool :=
  match a, b with
  | KNone, KNone => true
  | KInt n, KInt m => Z.eqb n m
  | KStr s, KStr t => String.eqb s t
  | _, _ => false
  end.

Lemma pykey_eqb_eq (a b : pykey) : pykey_eqb a b = true <-> a = b.
Proof.
  destruct a, b; simpl; split; intro H;
    try discriminate; try reflexivity.
  - apply Z.eqb_eq in H. now subst.
  - inversion H. apply Z.eqb_refl.
  - apply String.eqb_eq in H. now subst.
  - inversion H. apply String.eqb_refl.
Qed.

#[global] Instance string_Key : Key string :=
  {| keqb := String.eqb; keqb_eq := String.eqb_eq |}.

#[global] Instance pykey_Key : Key pykey :=
  {| keqb := pykey_eqb; keqb_eq := pykey_eqb_eq |}.

Lemma keqb_refl {K} `{Key K} (k : K) : keqb k k = true.
Proof. now apply keqb_eq. Qed.

Lemma keqb_neq {K} `{Key K} (x y : K) : keqb x y = false <-> x <> y.
Proof.
  split.
  - intros E ->. rewrite keqb_refl in E. discriminate.
  - intro N. destruct (keqb x y) eqn:E; [|reflexivity].
    apply keqb_eq in E. contradiction.
Qed.

(** ** Insertion-ordered dictionaries *)

Module ODict.

Definition odict (K V : Type) : Type := list (K * V).

Section Ops.
Context {K V : Type} `{Key K}.

    (** [d.get(k)] *)
Fixpoint get (k : K) (d : odict K V) : option V :=
      match d with
      | [] => None
      | (k', v) :: d' => if keqb k k' then Some v else get k d'
      end.

    (** [d[k] = v]: an existing key keeps its place, a new key goes last. *)
Fixpoint set (k : K) (v : V) (d : odict K V) : odict K V :=
      match d with
      | [] => [(k, v)]
      | (k', v') :: d' =>
          if keqb k k' then (k', v) :: d' else (k', v') :: set k v d'
      end.

Definition keys (d : odict K V) : list K := map fst d.
Definition values (d : odict K V) : list V := map snd d.

    (** truthiness of a dictionary *)
Definition nonempty (d : odict K V) : bool :=
      match d with [] => false | _ => true end.

    (** A list represents a dictionary when no key occurs twice. *)
Definition ok (d : odict K V) : Prop := NoDup (keys d).
End Ops.

End ODict.

Import ODict.

(** ** Builtins on strings and values *)

Definition is_upper (c : ascii) : bool :=
  let n := nat_of_ascii c in (Nat.leb 65 n && Nat.leb n 90)%bool.

Definition lower_char (c : ascii) : ascii :=
  if is_upper c then ascii_of_nat (nat_of_ascii c + 32) else c.

(** [s.lower()] on ASCII text *)
Fixpoint lower (s : string) : string :=
  match s with
  | EmptyString => EmptyString
  | String c s' => String (lower_char c) (lower s')
  end.

Fixpoint lstrip (c : ascii) (s : string) : string :=
  match s with
  | EmptyString => EmptyString
  | String c' s' => if Ascii.eqb c' c then lstrip c s' else s
  end.

Fixpoint string_rev (s : string) : string :=
  match s with
  | EmptyString => EmptyString
  | String c s' => string_rev s' ++ String c EmptyString
  end.

(** [s.strip(c)] for a one-character argument *)
Definition strip (c : ascii) (s : string) : string :=
  string_rev (lstrip c (string_rev (lstrip c s))).

(** [sep.join(parts)] *)
Definition join (sep : string) (parts : list string) : string :=
  String.concat sep parts.

(** [str(n)] and [repr(n)] of an [int] *)
Definition str_of_int (n : Z) : string := NilZero.string_of_int (Z.to_int n).

(** [n * s] for a string [s]: empty when [n <= 0] *)
Definition str_mul (n : Z) (s : string) : string :=
  String.concat "" (repeat s (Z.to_nat n)).

(** [s[-3:]] *)
Definition last3 (s : string) : string :=
  let n := String.length s in substring (n - 3) 3 s.

Fixpoint chars (s : string) : list string :=
  match s with
  | EmptyString => []
  | String c s' => String c EmptyString :: chars s'
  end.

(** truthiness, as tested by [if], [while] and [and] *)
Definition truthy (v : value) : bool :=
  match v with
  | VNone => false
  | VBool b => b
  | VInt n => negb (n =? 0)
  | VStr s => negb (String.eqb s "")
  | VList [] => false
  | VList (_ :: _) => true
  | VDict [] => false
  | VDict (_ :: _) => true
  end.

(** [v.get(k)]: only dictionaries have the method *)
Definition py_get (v : value) (k : string) : outcome value :=
  match v with
  | VDict kvs => Ret (match get k kvs with Some x => x | None => VNone end)
  | _ => Raise (Builtin AttributeError)
  end.

(** [v[k]] for a string [k] *)
Definition py_item (v : value) (k : string) : outcome value :=
  match v with
  | VDict kvs =>
      match get k kvs with
      | Some x => Ret x
      | None => Raise (Builtin KeyError)
      end
  | _ => Raise (Builtin TypeError)
  end.

(** [v[0]] *)
Definition py_item0 (v : value) : outcome value :=
  match v with
  | VList (x :: _) => Ret x
  | VList [] => Raise (Builtin IndexError)
  | VStr (String c _) => Ret (VStr (String c EmptyString))
  | VStr EmptyString => Raise (Builtin IndexError)
  | VDict _ => Raise (Builtin KeyError)
  | _ => Raise (Builtin TypeError)
  end.

(** the items a [for] loop or [list.extend] draws from [v] *)
Definition py_iter (v : value) : outcome (list value) :=
  match v with
  | VList l => Ret l
  | VDict kvs => Ret (map (fun kv => VStr (fst kv)) kvs)
  | VStr s => Ret (map VStr (chars s))
  | _ => Raise (Builtin TypeError)
  end.

(** [hash(v)] as needed to use [v] as a dictionary key *)
Definition py_key (v : value) : outcome pykey :=
  match v with
  | VNone => Ret KNone
  | VBool b => Ret (KInt (if b then 1 else 0))
  | VInt n => Ret (KInt n)
  | VStr s => Ret (KStr s)
  | VList _ | VDict _ => Raise (Builtin TypeError)
  end.

(** [resp['body'][0]['data']['device_id']] *)
Definition reading_id (resp : value) : outcome value :=
  and_then (py_item resp "body") (fun body =>
  and_then (py_item0 body) (fun reading =>
  and_then (py_item reading "data") (fun data =>
  py_item data "device_id"))).

(** [device['fields']['gerateinformation']['seriennummer']] *)
Definition seriennummer (device : value) : outcome value :=
  and_then (py_item device "fields") (fun fields =>
  and_then (py_item fields "gerateinformation") (fun info =>
  py_item info "seriennummer")).

(** [pat in s] for strings *)
Fixpoint contains (pat s : string) : bool :=
  match s with
  | EmptyString => prefix pat s
  | String _ s' => (prefix pat s || contains pat s')%bool
  end.

(** [c in s] for a character *)
Fixpoint occurs (c : ascii) (s : string) : bool :=
  match s with
  | EmptyString => false
  | String c' s' => (Ascii.eqb c' c || occurs c s')%bool
  end.

(** [s] with every character replaced by a star *)
Fixpoint starred (s : string) : string :=
  match s with
  | EmptyString => EmptyString
  | String _ s' => String "*" (starred s')
  end.

(** [[i[key] for i in items]]: the first element without the key ends
    the comprehension with its error *)
Fixpoint project (key : string) (items : list value) : outcome (list value) :=
  match items with
  | [] => Ret []
  | i :: rest =>
      and_then (py_item i key) (fun x =>
      and_then (project key rest) (fun xs => Ret (x :: xs)))
  end.



(** ** The world outside the client

    [urlopen w url] is [json.load(urllib.request.urlopen(url, timeout=5))]
    in world [w]: the decoded document or the exception, and the next
    world.  [repr_str] and [int_str] are the builtins [repr] and [int] on
    a [str] ([int_str s = None] when [int(s)] raises [ValueError]). *)
Class Runtime : Type := {
  World : Type;
  urlopen : World -> string -> (exn + value) * World;
  repr_str : string -> string;
  int_str : string -> option Z
}.

Section Client.

Context {RT : Runtime}.

(** [repr(v)] *)
Fixpoint py_repr (v : value) : string :=
  match v with
  | VNone => "None"
  | VBool true => "True"
  | VBool false => "False"
  | VInt n => str_of_int n
  | VStr s => repr_str s
  | VList l => "[" ++ join ", " (map py_repr l) ++ "]"
  | VDict kvs =>
      "{" ++ join ", "
        (map (fun kv => repr_str (fst kv) ++ ": " ++ py_repr (snd kv)) kvs)
      ++ "}"
  end.

(** [str(v)], which is what an f-string field [{v}] prints *)
Definition py_str (v : value) : string :=
  match v with
  | VStr s => s
  | _ => py_repr v
  end.

(** [int(v)] *)
Definition py_int (v : value) : outcome Z :=
  match v with
  | VInt n => Ret n
  | VBool b => Ret (if b then 1 else 0)
  | VStr s =>
      match int_str s with
      | Some n => Ret n
      | None => Raise (Builtin ValueError)
      end
  | _ => Raise (Builtin TypeError)
  end.

(** ** The client object and the monad of its methods *)

Record ElementApi : Type := mkElementApi {
  api_location : string;
  api_key : string;
  (* {'foldername': {'decentlab_id': 'address'}, ...} *)
  _id_to_address_mapping : odict string (odict pykey string)
}.

(** [ElementApi(api_location, api_key)] *)
Definition __init__ (location key : string) : ElementApi :=
  {| api_location := strip "/" location;
     api_key := key;
     _id_to_address_mapping := [] |}.

Record state : Type := mkState {
  self : ElementApi;
  net : World;
  sent : list string   (* every url handed to [urlopen], oldest first *)
}.

Definition M (A : Type) : Type := state -> outcome A * state.

Definition ret {A} (a : A) : M A := fun s => (Ret a, s).
Definition raise {A} (e : exn) : M A := fun s => (Raise e, s).
Definition lift {A} (o : outcome A) : M A := fun s => (o, s).

Definition bind {A B} (m : M A) (f : A -> M B) : M B :=
  fun s =>
    match m s with
    | (Ret a, s') => f a s'
    | (Raise e, s') => (Raise e, s')
    | (OutOfFuel, s') => (OutOfFuel, s')
    end.

Notation "x <- m ;; k" := (bind m (fun x => k))
  (at level 61, m at next level, right associativity).

Definition get_self : M ElementApi := fun s => (Ret (self s), s).

Definition set_cache (c : odict string (odict pykey string)) : M unit :=
  fun s =>
    (Ret tt,
     {| self := {| api_location := api_location (self s);
                   api_key := api_key (self s);
                   _id_to_address_mapping := c |};
        net := net s;
        sent := sent s |}).

(** one round trip: [json.load(urllib.request.urlopen(req, timeout=5))] *)
Definition fetch (req : string) : M value :=
  fun s =>
    let (r, w) := urlopen (net s) req in
    (match r with inl e => Raise e | inr v => Ret v end,
     {| self := self s; net := w; sent := sent s ++ [req] |}).

(** ** The cache: a [defaultdict(dict)] *)

Definition cache : Type := odict string (odict pykey string).

(** [c[folder]] on the [defaultdict]: a missing folder is created empty *)
Definition dd_item (folder : string) (c : cache) : odict pykey string * cache :=
  match get folder c with
  | Some inner => (inner, c)
  | None => ([], set folder [] c)
  end.

(** [c[folder][k] = v] *)
Definition dd_store (folder : string) (k : pykey) (v : string) (c : cache) : cache :=
  let (inner, c') := dd_item folder c in
  set folder (set k v inner) c'.

(** [{inner_v: inner_k for inner_k, inner_v in inner.items()}] *)
Definition invert (inner : odict pykey string) : odict string pykey :=
  fold_left (fun acc kv => set (snd kv) (fst kv) acc) inner [].

(** the property [_address_to_id_mapping] *)
Definition _address_to_id_mapping (c : cache) : odict string (odict string pykey) :=
  fold_left (fun acc kv => set (fst kv) (invert (snd kv)) acc) c [].

(** ** The paginator *)

(** [max_pages and i >= max_pages] *)
Definition cap_reached (max_pages : option Z) (i : Z) : bool :=
  match max_pages with
  | None => false
  | Some m => (negb (m =? 0) && (m <=? i))%bool
  end.

(** [output_data['body'] = l], the place of the key unchanged: the effect
    of extending the list object in place *)
Definition with_body (output_data : value) (l : list value) : value :=
  match output_data with
  | VDict kvs => VDict (set "body" (VList l) kvs)
  | _ => output_data
  end.

Definition pagination_msg : string :=
  "cannot handle pagination when `body` is not an array".

(** the [while retrieve_after_id:] loop; [req0] is the first request *)
Fixpoint paginate (fuel : nat) (req0 : string) (max_pages : option Z)
    (i : Z) (output_data retrieve_after_id : value) : M value :=
  if truthy retrieve_after_id then
    if cap_reached max_pages i then ret output_data
    else
      match fuel with
      | O => lift OutOfFuel
      | S fuel' =>
          data <- fetch (req0 ++ "&retrieve_after=" ++ py_str retrieve_after_id) ;;
          retrieve_after_id' <- lift (py_get data "retrieve_after_id") ;;
          body <- lift (py_item output_data "body") ;;
          match body with
          | VList l =>
              more <- lift (py_item data "body") ;;
              items <- lift (py_iter more) ;;
              paginate fuel' req0 max_pages (i + 1)
                (with_body output_data (l ++ items)) retrieve_after_id'
          | _ => raise (Raised TypeError pagination_msg)
          end
      end
  else ret output_data.

(** [f'{k}={v}'] for each item of [params], joined with [&] *)
Definition param_str (params : list (string * value)) : string :=
  match params with
  | [] => ""
  | _ => "&" ++ join "&" (map (fun kv => fst kv ++ "=" ++ py_str (snd kv)) params)
  end.

Definition request_url (api : ElementApi) (route : string)
    (params : list (string * value)) : string :=
  api_location api ++ "/" ++ route ++ "?&auth=" ++ api_key api ++ param_str params.

Definition _make_req (fuel : nat) (route : string)
    (params : list (string * value)) (max_pages : option Z) : M value :=
  api <- get_self ;;
  let req := request_url api route params in
  output_data <- fetch req ;;
  retrieve_after_id <- lift (py_get output_data "retrieve_after_id") ;;
  paginate fuel req max_pages 1 output_data retrieve_after_id.

(** ** Resource accessors used by the cache *)

Definition devices_route (folder : string) : string :=
  join "/" ["tags"; folder; "devices"].

Definition get_devices (fuel : nat) (folder : string) : M value :=
  _make_req fuel (devices_route folder) [] None.

Definition device_route (address : string) : string :=
  join "/" ["devices"; lower address].

Definition get_device (fuel : nat) (address : string) : M value :=
  _make_req fuel (device_route address) [] None.

Definition readings_route (device_name : string) : string :=
  join "/" ["devices"; "by-name"; device_name; "readings"].

(** [get_readings] with [as_dataframe=False].  [start] and [end] are the
    [isoformat()] texts of the datetimes; [device_name] is any value, and
    joining it into the route fails unless it is a [str]. *)
Definition get_readings (fuel : nat) (device_name : value)
    (sort sort_direction : string) (start end_ : option string)
    (limit : Z) (max_pages : option Z) : M value :=
  let params :=
    [("sort", VStr sort); ("sort_direction", VStr sort_direction);
     ("limit", VInt limit)] in
  let params :=
    match start with Some t => set "after" (VStr t) params | None => params end in
  let params :=
    match end_ with Some t => set "before" (VStr t) params | None => params end in
  match device_name with
  | VStr name =>
      _make_req fuel (readings_route name) params max_pages
  | _ => raise (Builtin TypeError)
  end.

Definition get_folders (fuel : nat) : M value :=
  _make_req fuel "tags" [] None.

Definition get_folder_slugs (fuel : nat) : M (list value) :=
  ret_ <- get_folders fuel ;;
  body <- lift (py_item ret_ "body") ;;
  items <- lift (py_iter body) ;;
  lift (project "slug" items).

Definition get_device_addresses (fuel : nat) (folder : string)
    : M (list value) :=
  devices <- get_devices fuel folder ;;
  body <- lift (py_item devices "body") ;;
  items <- lift (py_iter body) ;;
  lift (project "name" items).

(** the query parameters of the two packet accessors; [if packet_type:]
    tests the string for truthiness *)
Definition packet_params (packet_type start end_ : option string)
    (limit : Z) : list (string * value) :=
  let params := [("limit", VInt limit)] in
  let params :=
    match packet_type with
    | Some t =>
        if truthy (VStr t) then set "packet_type" (VStr t) params else params
    | None => params
    end in
  let params :=
    match start with Some t => set "after" (VStr t) params | None => params end in
  match end_ with Some t => set "before" (VStr t) params | None => params end.

Definition packets_route (device_name : string) : string :=
  join "/" ["devices"; "by-name"; device_name; "packets"].

Definition get_packets_by_device (fuel : nat) (device_name : string)
    (packet_type start end_ : option string) (limit : Z)
    (max_pages : option Z) : M value :=
  _make_req fuel (packets_route device_name)
    (packet_params packet_type start end_ limit) max_pages.

Definition folder_packets_route (folder : string) : string :=
  join "/" ["tags"; folder; "packets"].

Definition get_packets_by_folder (fuel : nat) (folder : string)
    (packet_type start end_ : option string) (limit : Z)
    (max_pages : option Z) : M value :=
  _make_req fuel (folder_packets_route folder)
    (packet_params packet_type start end_ limit) max_pages.

(** ** The identifier cache *)

(** [self._id_to_address_mapping[folder]], creating the folder if absent *)
Definition touch (folder : string) : M (odict pykey string) :=
  api <- get_self ;;
  let (inner, c) := dd_item folder (_id_to_address_mapping api) in
  _ <- set_cache c ;;
  ret inner.

(** [self._id_to_address_mapping[folder][k] = address]: the folder is
    looked up (and created) before [k] is hashed *)
Definition store (folder : string) (k : value) (address : string) : M pykey :=
  inner <- touch folder ;;
  k' <- lift (py_key k) ;;
  api <- get_self ;;
  _ <- set_cache (set folder (set k' address inner) (_id_to_address_mapping api)) ;;
  ret k'.

(** the cached id of [address], as the first two statements of
    [decentlab_id_from_address] compute it ([None] for a miss) *)
Definition cached_id (c : cache) (address folder : string) : option pykey :=
  match get folder (_address_to_id_mapping c) with
  | Some folder_mapping =>
      if nonempty folder_mapping then get address folder_mapping else None
  | None => None
  end.

Definition decentlab_id_from_address (fuel : nat) (address folder : string)
    : M pykey :=
  api <- get_self ;;
  match cached_id (_id_to_address_mapping api) address folder with
  | Some KNone | None =>
      (* we don't know the id, try retrieving it from the API *)
      resp <- get_device fuel address ;;
      device <- lift (py_item resp "body") ;;
      decentlab_id <- lift (and_then (seriennummer device) py_int) ;;
      store folder (VInt decentlab_id) address
  | Some decentlab_id => ret decentlab_id
  end.

(** [folder_mapping and folder_mapping.get(decentlab_id)], and the address
    returned when that is truthy *)
Definition cached_address (c : cache) (decentlab_id : Z) (folder : string)
    : option string :=
  match get folder c with
  | Some folder_mapping =>
      if nonempty folder_mapping then
        match get (KInt decentlab_id) folder_mapping with
        | Some a => if String.eqb a "" then None else Some a
        | None => None
        end
      else None
  | None => None
  end.

(** [curr_folder and curr_device_addr in ...[folder].values()] *)
Definition already_probed (c : cache) (folder : string)
    (curr_device_addr : value) : bool :=
  match get folder c with
  | Some curr_folder =>
      (nonempty curr_folder &&
       match curr_device_addr with
       | VStr a => existsb (String.eqb a) (values curr_folder)
       | _ => false
       end)%bool
  | None => false
  end.

(** one turn of the [for] loop over the devices: [Some addr] when the
    turn ends in [return curr_device_addr], [None] when it ends in
    [continue] or runs through to the next device *)
Definition probe_device (fuel : nat) (decentlab_id : Z) (folder : string)
    (i : value) : M (option string) :=
  curr_device_addr <- lift (py_item i "name") ;;
  (* we can skip the ids we have already requested *)
  api <- get_self ;;
  if already_probed (_id_to_address_mapping api) folder curr_device_addr
  then ret None
  else
    (* now request some data from the device to get the device id *)
    resp <- get_readings fuel curr_device_addr "measured_at" "asc"
              None None 1 (Some 1) ;;
    curr_decentlab_id <- lift (reading_id resp) ;;
    match curr_device_addr with
    | VStr addr =>
        k <- store folder curr_decentlab_id addr ;;
        if keqb k (KInt decentlab_id) then ret (Some addr) else ret None
    | _ => raise (Builtin TypeError) (* [get_readings] has raised it *)
    end.

(** the [for] loop; [None] when it runs to its end, which is where
    Python enters the [else:] branch *)
Fixpoint probe_devices (fuel : nat) (decentlab_id : Z) (folder : string)
    (devices : list value) : M (option string) :=
  match devices with
  | [] => ret None
  | i :: rest =>
      found <- probe_device fuel decentlab_id folder i ;;
      match found with
      | Some addr => ret (Some addr)
      | None => probe_devices fuel decentlab_id folder rest
      end
  end.

Definition unable_msg (decentlab_id : Z) : string :=
  "unable to find address for station: " ++ str_of_int decentlab_id.

Definition address_from_decentlab_id (fuel : nat) (decentlab_id : Z)
    (folder : string) : M string :=
  api <- get_self ;;
  match cached_address (_id_to_address_mapping api) decentlab_id folder with
  | Some a => ret a
  | None =>
      devices <- get_devices fuel folder ;;
      body <- lift (py_item devices "body") ;;
      items <- lift (py_iter body) ;;
      found <- probe_devices fuel decentlab_id folder items ;;
      match found with
      | Some a => ret a
      | None => raise (Raised ValueError (unable_msg decentlab_id))
      end
  end.

(** the one request a probe of the device [addr] sends *)
Definition probe_url (api : ElementApi) (addr : string) : string :=
  request_url api (readings_route addr)
    [("sort", VStr "measured_at"); ("sort_direction", VStr "asc");
     ("limit", VInt 1)].

(** ** Sessions: sequences of calls on one client *)

Inductive call : Type :=
| Forward (fuel : nat) (address folder : string)
| Reverse (fuel : nat) (decentlab_id : Z) (folder : string)
| Request (fuel : nat) (route : string) (params : list (string * value))
    (max_pages : option Z).

Definition exec (c : call) (s : state) : state :=
  match c with
  | Forward fuel address folder =>
      snd (decentlab_id_from_address fuel address folder s)
  | Reverse fuel decentlab_id folder =>
      snd (address_from_decentlab_id fuel decentlab_id folder s)
  | Request fuel route params max_pages =>
      snd (_make_req fuel route params max_pages s)
  end.

(** the folder whose cache a call may write *)
Definition call_folder (c : call) : option string :=
  match c with
  | Forward _ _ folder | Reverse _ _ folder => Some folder
  | Request _ _ _ _ => None
  end.

Definition run (cs : list call) (s : state) : state :=
  fold_left (fun s c => exec c s) cs s.

(** a client just constructed, facing the world [w] *)
Definition fresh (location key : string) (w : World) : state :=
  {| self := __init__ location key; net := w; sent := [] |}.

(** [c[folder][k]] without the default, [None] when either key is absent *)
Definition lookup {K V} `{Key K} (c : odict string (odict K V))
    (folder : string) (k : K) : option V :=
  match get folder c with
  | Some inner => get k inner
  | None => None
  end.

(** the dictionary of [folder], empty when the folder is unknown *)
Definition folder_map (c : cache) (folder : string) : odict pykey string :=
  match get folder c with
  | Some inner => inner
  | None => []
  end.

(** every level of the cache is a dictionary: no key twice *)
Definition cache_ok (c : cache) : Prop :=
  ok c /\ forall f inner, In (f, inner) c -> ok inner.

(** the state after [self._id_to_address_mapping] has become [c] *)
Definition with_cache (s : state) (c : cache) : state :=
  {| self := {| api_location := api_location (self s);
                api_key := api_key (self s);
                _id_to_address_mapping := c |};
     net := net s;
     sent := sent s |}.

Definition same_endpoint (a b : ElementApi) : Prop :=
  api_location a = api_location b /\ api_key a = api_key b.

(** [m] keeps location and key, and moves the cache along [R] only *)
Definition moves_cache_by (R : cache -> cache -> Prop) {A} (m : M A) : Prop :=
  forall s,
    same_endpoint (self s) (self (snd (m s))) /\
    R (_id_to_address_mapping (self s))
      (_id_to_address_mapping (self (snd (m s)))).

(** no two ids of [folder] are cached with the same address *)
Definition injective_in (c : cache) (folder : string) : Prop :=
  forall k1 k2 a,
    lookup c folder k1 = Some a -> lookup c folder k2 = Some a -> k1 = k2.


(** ** Paginated sources

    [follows w req0 tok pages]: in world [w], after a page that carried the
    token [tok], the server hands out exactly [pages], one per continuation
    request, each with a truthy token except the last. *)

Definition token (page : list (string * value)) : value :=
  match get "retrieve_after_id" page with
  | Some t => t
  | None => VNone
  end.

Definition next_url (req0 : string) (tok : value) : string :=
  req0 ++ "&retrieve_after=" ++ py_str tok.

Fixpoint follows (w : World) (req0 : string) (tok : value)
    (pages : list (list (string * value))) : Prop :=
  match pages with
  | [] => truthy tok = false
  | p :: ps =>
      truthy tok = true /\
      fst (urlopen w (next_url req0 tok)) = inr (VDict p) /\
      follows (snd (urlopen w (next_url req0 tok))) req0 (token p) ps
  end.

(** the source answers [req0] with [first] and goes on with [rest] *)
Definition emits (w : World) (req0 : string)
    (first : list (string * value)) (rest : list (list (string * value)))
    : Prop :=
  fst (urlopen w req0) = inr (VDict first) /\
  follows (snd (urlopen w req0)) req0 (token first) rest.

(** the records of a page whose body is a sequence *)
Definition records (page : list (string * value)) : list value :=
  match get "body" page with
  | Some (VList l) => l
  | _ => []
  end.

Definition has_records (page : list (string * value)) : Prop :=
  exists l, get "body" page = Some (VList l).

(** the requests that fetch [first] and then the pages [rest] *)
Fixpoint next_urls (req0 : string) (tok : value)
    (pages : list (list (string * value))) : list string :=
  match pages with
  | [] => []
  | p :: ps => next_url req0 tok :: next_urls req0 (token p) ps
  end.

(** [breaks w req0 tok pages e]: like [follows], but after [pages] the
    next continuation request fails with [e] *)
Fixpoint breaks (w : World) (req0 : string) (tok : value)
    (pages : list (list (string * value))) (e : exn) : Prop :=
  match pages with
  | [] =>
      truthy tok = true /\
      fst (urlopen w (next_url req0 tok)) = inl e
  | p :: ps =>
      truthy tok = true /\
      fst (urlopen w (next_url req0 tok)) = inr (VDict p) /\
      breaks (snd (urlopen w (next_url req0 tok))) req0 (token p) ps e
  end.

(** ** Equality of clients *)

(** what [__eq__] may be handed: another client, or anything else *)
Inductive object : Type :=
| Client (api : ElementApi)
| Plain (v : value).

Definition __eq__ (self : ElementApi) (value : object) : bool :=
  match value with
  | Client other =>
      (* we intentionally ignore the caches *)
      (String.eqb (api_key self) (api_key other) &&
       String.eqb (api_location self) (api_location other))%bool
  | Plain _ => false
  end.

(** ** Printing *)

Definition redacted (key : string) : string :=
  str_mul (Z.of_nat (String.length key) - 3) "*" ++ last3 key.

Definition __repr__ (api : ElementApi) : string :=
  "ElementApi" ++ "(" ++ "api_location=" ++ repr_str (api_location api)
  ++ ", " ++ "api_key=" ++ redacted (api_key api) ++ ")".

End Client.

(** ** A concrete runtime: a scripted server *)

Module Demo.

  (** [repr] of a string without quotes, backslashes or control codes *)
Definition quote (s : string) : string := "'" ++ s ++ "'".

Definition digit (c : ascii) : option Z :=
    let n := nat_of_ascii c in
    if (Nat.leb 48 n && Nat.leb n 57)%bool then Some (Z.of_nat n - 48) else None.

Fixpoint digits (acc : Z) (s : string) : option Z :=
    match s with
    | EmptyString => Some acc
    | String c s' =>
        match digit c with
        | Some d => digits (10 * acc + d) s'
        | None => None
        end
    end.

  (** [int] of a plain run of decimal digits *)
Definition decimal (s : string) : option Z :=
    match s with
    | EmptyString => None
    | _ => digits 0 s
    end.

  (** A server that answers by url, the same way every time. *)
Definition table : Type := list (string * value).

Definition serve (t : table) (w : unit) (url : string) : (exn + value) * unit :=
    (match get url t with
     | Some v => inr v
     | None => inl (Transport "HTTP Error 404: Not Found")
     end, w).

Definition runtime (t : table) : Runtime :=
    {| World := unit; urlopen := serve t; repr_str := quote; int_str := decimal |}.

  (** A server that plays a script: the n-th request gets the n-th answer. *)
Definition play (w : list value) (url : string) : (exn + value) * list value :=
    match w with
    | v :: w' => (inr v, w')
    | [] => (inl (Transport "timed out"), [])
    end.

Definition scripted : Runtime :=
    {| World := list value; urlopen := play; repr_str := quote; int_str := decimal |}.

  (** *** A small server *)

Definition envelope (body : value) : value :=
    VDict [("body", body); ("ok", VBool true); ("status", VInt 200)].

Definition device (name : string) : value :=
    VDict [("name", VStr name); ("slug", VStr (lower name))].

Definition reading_of (id : Z) : value :=
    VDict [("measured_at", VStr "2024-05-01T12:00:00Z");
           ("data", VDict [("temperature", VInt 21); ("device_id", VInt id)])].

Definition readings (id : Z) : value := envelope (VList [reading_of id]).

Definition metadata (serial : string) : value :=
    envelope
      (VDict [("fields",
               VDict [("gerateinformation",
                       VDict [("seriennummer", VStr serial)])])]).

Definition scalar_page : list (string * value) :=
    [("body", VDict [("name", VStr "S")]); ("retrieve_after_id", VStr "t1")].

Definition server : table :=
    [("https://x/api/v1/tags/f/devices?&auth=abcdef123",
      envelope (VList [device "D1"; device "D2"; device "D3"]));
     ("https://x/api/v1/tags/g/devices?&auth=abcdef123",
      envelope (VList [device "D1"; device "E0"; device "D2"]));
     ("https://x/api/v1/devices/by-name/D1/readings?&auth=abcdef123&sort=measured_at&sort_direction=asc&limit=1",
      readings 11);
     ("https://x/api/v1/devices/by-name/D2/readings?&auth=abcdef123&sort=measured_at&sort_direction=asc&limit=1",
      readings 22);
     ("https://x/api/v1/devices/by-name/D3/readings?&auth=abcdef123&sort=measured_at&sort_direction=asc&limit=1",
      readings 33);
     ("https://x/api/v1/devices/by-name/E0/readings?&auth=abcdef123&sort=measured_at&sort_direction=asc&limit=1",
      envelope (VList []));
     ("https://x/api/v1/devices/dec1?&auth=abcdef123", metadata "11");
     ("https://x/api/v1/devices/?&auth=abcdef123", metadata "5");
     ("https://x/api/v1/devices/scalar?&auth=abcdef123", VDict scalar_page);
     ("https://x/api/v1/devices/scalar?&auth=abcdef123&retrieve_after=t1",
      envelope (VDict [("name", VStr "S")]))].

Definition rt : Runtime := runtime server.

  (** a client just constructed against [server] *)
Definition s0 : @state rt :=
    @fresh rt "https://x/api/v1/" "abcdef123" tt.

  (** *** A source of three pages *)

Definition page1 : list (string * value) :=
    [("body", VList [VInt 1; VInt 2]); ("retrieve_after_id", VStr "t1")].
Definition page2 : list (string * value) :=
    [("body", VList [VInt 3]); ("retrieve_after_id", VStr "t2")].
Definition page3 : list (string * value) :=
    [("body", VList [VInt 4; VInt 5])].

Definition sP : @state scripted :=
    @fresh scripted "https://x/api/v1/" "abcdef123"
      [VDict page1; VDict page2; VDict page3].

End Demo.

(** ** More fixtures: folders, a listing with a nameless device, a
    source that fails on the third request *)

Module Demo2.

Definition folder (slug : string) : value :=
  VDict [("name", VStr slug); ("slug", VStr slug)].

Definition server : Demo.table :=
  [("https://x/api/v1/tags?&auth=abcdef123",
    Demo.envelope (VList [folder "f"; folder "g"]));
   ("https://x/api/v1/tags/h/devices?&auth=abcdef123",
    Demo.envelope
      (VList [Demo.device "D1"; VDict [("slug", VStr "d9")]; Demo.device "D2"]));
   ("https://x/api/v1/tags/f/devices?&auth=abcdef123",
    Demo.envelope (VList [Demo.device "D1"; Demo.device "D2"]));
   ("https://x/api/v1/tags/f/packets?&auth=abcdef123&limit=100&packet_type=up",
    VDict [("body", VList [VInt 1]); ("retrieve_after_id", VStr "t1")]);
   ("https://x/api/v1/tags/f/packets?&auth=abcdef123&limit=100&packet_type=up&retrieve_after=t1",
    VDict [("body", VDict [("a", VInt 1); ("b", VInt 2)])])].

Definition rt : Runtime := Demo.runtime server.

Definition s0 : @state rt := @fresh rt "https://x/api/v1/" "abcdef123" tt.

(** two pages, then the transport times out *)
Definition sB : @state Demo.scripted :=
  @fresh Demo.scripted "https://x/api/v1/" "abcdef123"
    [VDict Demo.page1; VDict Demo.page2].

End Demo2.

(** ** A folder whose listing names its two devices twice, both devices
    reporting the id 11 *)

Module Demo3.

Definition server : Demo.table :=
  [("https://x/api/v1/tags/dup/devices?&auth=abcdef123",
    Demo.envelope
      (VList [Demo.device "D1"; Demo.device "D2";
              Demo.device "D1"; Demo.device "D2"]));
   ("https://x/api/v1/devices/by-name/D1/readings?&auth=abcdef123&sort=measured_at&sort_direction=asc&limit=1",
    Demo.readings 11);
   ("https://x/api/v1/devices/by-name/D2/readings?&auth=abcdef123&sort=measured_at&sort_direction=asc&limit=1",
    Demo.readings 11)].

Definition rt : Runtime := Demo.runtime server.

Definition s0 : @state rt := @fresh rt "https://x/api/v1/" "abcdef123" tt.

End Demo3.

(** * Properties *)

Open Scope list_scope.

(** ** Dictionaries *)

Section ODictFacts.
Context {K V : Type} `{Key K}.

Lemma get_set_same (k : K) (v : V) (d : odict K V) : get k (set k v d) = Some v.
Proof.
    induction d as [|[k' v'] d IH]; simpl.
    - now rewrite keqb_refl.
    - destruct (keqb k k') eqn:E; simpl; rewrite E; auto.
Qed.

Lemma get_set_other (k k' : K) (v : V) (d : odict K V) :
    k <> k' -> get k' (set k v d) = get k' d.
Proof.
    intro N. induction d as [|[k0 v0] d IH]; simpl.
    - assert (E : keqb k' k = false) by (apply keqb_neq; congruence).
      now rewrite E.
    - destruct (keqb k k0) eqn:E; simpl.
      + apply keqb_eq in E. subst k0.
        assert (E' : keqb k' k = false) by (apply keqb_neq; congruence).
        now rewrite E'.
      + now rewrite IH.
Qed.

Lemma set_set (k : K) (v v' : V) (d : odict K V) :
    set k v (set k v' d) = set k v d.
Proof.
    induction d as [|[k0 v0] d IH]; simpl.
    - now rewrite keqb_refl.
    - destruct (keqb k k0) eqn:E; simpl; rewrite E; congruence.
Qed.

Lemma set_get_id (k : K) (v : V) (d : odict K V) :
    get k d = Some v -> set k v d = d.
Proof.
    induction d as [|[k0 v0] d IH]; simpl; [discriminate|].
    destruct (keqb k k0) eqn:E; intro G.
    - congruence.
    - now rewrite IH.
Qed.

Lemma keys_set (k : K) (v : V) (d : odict K V) :
    keys (set k v d) =
    match get k d with Some _ => keys d | None => keys d ++ [k] end.
Proof.
    unfold keys. induction d as [|[k0 v0] d IH]; simpl; [reflexivity|].
    destruct (keqb k k0) eqn:E; simpl; [reflexivity|].
    rewrite IH. now destruct (get k d).
Qed.

Lemma get_In (k : K) (v : V) (d : odict K V) :
    get k d = Some v -> In (k, v) d.
Proof.
    induction d as [|[k0 v0] d IH]; simpl; [discriminate|].
    destruct (keqb k k0) eqn:E; intro G.
    - apply keqb_eq in E. left. congruence.
    - right. auto.
Qed.

Lemma get_None_keys (k : K) (d : odict K V) :
    get k d = None <-> ~ In k (keys d).
Proof.
    induction d as [|[k0 v0] d IH]; simpl; [tauto|].
    destruct (keqb k k0) eqn:E.
    - apply keqb_eq in E. subst. split; [discriminate|]. intro N. exfalso. auto.
    - apply keqb_neq in E. rewrite IH. unfold keys. split.
      + intros N [G|G]; [congruence|contradiction].
      + tauto.
Qed.

Lemma In_get (k : K) (v : V) (d : odict K V) :
    ok d -> In (k, v) d -> get k d = Some v.
Proof.
    unfold ok, keys. induction d as [|[k0 v0] d IH]; simpl; [contradiction|].
    intros N [G|G].
    - inversion G. subst. now rewrite keqb_refl.
    - inversion N as [|? ? N1 N2]. subst.
      destruct (keqb k k0) eqn:E.
      + apply keqb_eq in E. subst. exfalso. apply N1.
        change k0 with (fst (k0, v)). now apply in_map.
      + auto.
Qed.

Lemma ok_set (k : K) (v : V) (d : odict K V) : ok d -> ok (set k v d).
Proof.
    unfold ok. rewrite keys_set. destruct (get k d) eqn:G; [trivial|].
    intro N. apply NoDup_app; auto.
    - repeat constructor. simpl. tauto.
    - intros x Hx [Hk|[]]. subst. apply get_None_keys in G. contradiction.
Qed.

End ODictFacts.

(** ** The paginator *)

Section Paginator.

Context {RT : Runtime}.

Lemma paginate_eq (fuel : nat) req0 mp i out tok :
  paginate fuel req0 mp i out tok =
  if truthy tok then
    if cap_reached mp i then ret out
    else
      match fuel with
      | O => lift OutOfFuel
      | S fuel' =>
          bind (fetch (next_url req0 tok)) (fun data =>
          bind (lift (py_get data "retrieve_after_id")) (fun tok' =>
          bind (lift (py_item out "body")) (fun body =>
          match body with
          | VList l =>
              bind (lift (py_item data "body")) (fun more =>
              bind (lift (py_iter more)) (fun items =>
              paginate fuel' req0 mp (i + 1) (with_body out (l ++ items)) tok'))
          | _ => raise (Raised TypeError pagination_msg)
          end)))
      end
  else ret out.
Proof. destruct fuel; reflexivity. Qed.

Lemma fetch_eq (req : string) (s : state) :
  fetch req s =
  (match fst (urlopen (net s) req) with inl e => Raise e | inr v => Ret v end,
   {| self := self s; net := snd (urlopen (net s) req); sent := sent s ++ [req] |}).
Proof. unfold fetch. now destruct (urlopen (net s) req). Qed.

Lemma py_get_token (p : list (string * value)) :
  py_get (VDict p) "retrieve_after_id" = Ret (token p).
Proof. reflexivity. Qed.

(** Following [n] of the pages on offer: the loop merges exactly those
    when the cap lets the first [n] continuations through and stops the
    next one (or when there is no next one). *)
Lemma paginate_follows (n : nat) :
  forall pages fuel req0 mp i out acc tok s,
    follows (net s) req0 tok pages ->
    Forall has_records pages ->
    get "body" out = Some (VList acc) ->
    (n <= length pages)%nat ->
    (n <= fuel)%nat ->
    (forall j, (j < n)%nat -> cap_reached mp (i + Z.of_nat j) = false) ->
    ((n < length pages)%nat -> cap_reached mp (i + Z.of_nat n) = true) ->
    exists s',
      paginate fuel req0 mp i (VDict out) tok s =
        (Ret (VDict (set "body"
                (VList (acc ++ concat (map records (firstn n pages)))) out)),
         s') /\
      self s' = self s /\
      sent s' = sent s ++ firstn n (next_urls req0 tok pages).
Proof.
  induction n as [|n IH]; intros pages fuel req0 mp i out acc tok s F R B Ln Lf Clo Chi.
  - exists s. rewrite paginate_eq. simpl. rewrite !app_nil_r.
    rewrite (set_get_id _ _ B).
    destruct pages as [|p ps]; simpl in F.
    + rewrite F. auto.
    + destruct F as [T _]. rewrite T.
      rewrite Z.add_0_r in Chi. rewrite Chi by (simpl; lia). auto.
  - destruct pages as [|p ps]; [simpl in Ln; lia|].
    destruct fuel as [|fuel]; [lia|].
    simpl in F. destruct F as (T & U & F).
    inversion R as [|? ? [l Hl] R']. subst.
    rewrite paginate_eq, T.
    assert (C0 : cap_reached mp i = false).
    { specialize (Clo 0%nat). rewrite Z.add_0_r in Clo. apply Clo. lia. }
    rewrite C0. unfold bind at 1. rewrite fetch_eq, U.
    unfold bind at 1. unfold lift at 1. rewrite py_get_token.
    unfold bind at 1. unfold lift at 1. simpl py_item at 1. rewrite B.
    unfold bind at 1. unfold lift at 1. simpl py_item at 1. rewrite Hl.
    unfold bind at 1. unfold lift at 1. simpl py_iter.
    simpl with_body.
    edestruct (@IH ps fuel req0 mp (i + 1) (set "body" (VList (acc ++ l)) out)
                 (acc ++ l) (token p)
                 {| self := self s;
                    net := snd (urlopen (net s) (next_url req0 tok));
                    sent := sent s ++ [next_url req0 tok] |})
      as (s' & E & Hs & Hn); simpl; auto.
    + apply get_set_same.
    + simpl in Ln. lia.
    + lia.
    + intros j Hj. replace (i + 1 + Z.of_nat j) with (i + Z.of_nat (S j)) by lia.
      apply Clo. lia.
    + intro Hlt. replace (i + 1 + Z.of_nat n) with (i + Z.of_nat (S n)) by lia.
      apply Chi. simpl. lia.
    + exists s'. rewrite E. simpl in Hs, Hn. split; [|split]; auto.
      * rewrite set_set. simpl. replace (records p) with l.
        -- now rewrite app_assoc.
        -- unfold records. now rewrite Hl.
      * rewrite Hn. simpl. now rewrite <- app_assoc.
Qed.

Lemma bind_ext {A B} (m : M A) (f g : A -> M B) (s : state) :
  (forall a s', f a s' = g a s') -> bind m f s = bind m g s.
Proof.
  intro E. unfold bind. destruct (m s) as [[a|e|] s']; auto.
Qed.

Lemma paginate_zero_cap (fuel : nat) :
  forall req0 i out tok s,
    paginate fuel req0 (Some 0) i out tok s = paginate fuel req0 None i out tok s.
Proof.
  induction fuel as [|fuel IH]; intros req0 i out tok s;
    rewrite (paginate_eq _ _ (Some 0)), (paginate_eq _ _ None); simpl;
    destruct (truthy tok); try reflexivity.
  apply bind_ext. intros data s1.
  apply bind_ext. intros tok' s2.
  apply bind_ext. intros body s3.
  destruct body; try reflexivity.
  apply bind_ext. intros more s4.
  apply bind_ext. intros items s5.
  apply IH.
Qed.

(** [_make_req] against a paginated source, for any page cap that lets
    [n] continuations through. *)
Lemma make_req_follows (n : nat) :
  forall fuel route params mp s first rest,
    emits (net s) (request_url (self s) route params) first rest ->
    Forall has_records (first :: rest) ->
    (n <= length rest)%nat ->
    (n <= fuel)%nat ->
    (forall j, (j < n)%nat -> cap_reached mp (1 + Z.of_nat j) = false) ->
    ((n < length rest)%nat -> cap_reached mp (1 + Z.of_nat n) = true) ->
    exists s',
      _make_req fuel route params mp s =
        (Ret (with_body (VDict first)
                (concat (map records (firstn (S n) (first :: rest))))), s') /\
      self s' = self s /\
      sent s' =
        sent s ++
        firstn (S n)
          (request_url (self s) route params ::
           next_urls (request_url (self s) route params) (token first) rest).
Proof.
  intros fuel route params mp s first rest [U F] R Ln Lf Clo Chi.
  inversion R as [|? ? [l Hl] R']. subst.
  unfold _make_req. unfold bind at 1. unfold get_self.
  unfold bind at 1. rewrite fetch_eq, U.
  unfold bind at 1. unfold lift at 1. rewrite py_get_token.
  set (req0 := request_url (self s) route params) in *.
  edestruct (@paginate_follows n rest fuel req0 mp 1 first l (token first)
               {| self := self s; net := snd (urlopen (net s) req0);
                  sent := sent s ++ [req0] |})
    as (s' & E & Hs & Hn); simpl; auto.
  exists s'. rewrite E. simpl in Hs, Hn. split; [|split]; auto.
  - simpl. replace (records first) with l; [reflexivity|].
    unfold records. now rewrite Hl.
  - rewrite Hn. now rewrite <- app_assoc.
Qed.

(** what [with_body] writes, read back with [get] *)
Lemma with_body_list (first : list (string * value)) (b : value)
    (l : list value) :
  get "body" first = Some b ->
  exists kvs,
    with_body (VDict first) l = VDict kvs /\
    get "body" kvs = Some (VList l) /\
    keys kvs = keys first /\
    (forall k, k <> "body"%string -> get k kvs = get k first).
Proof.
  intro B. exists (set "body" (VList l) first). split; [reflexivity|].
  split; [apply get_set_same|]. split.
  - now rewrite keys_set, B.
  - intros k Hk. apply get_set_other. congruence.
Qed.

Lemma bodies_records (pages : list (list (string * value)))
    (bodies : list (list value)) :
  Forall2 (fun page l => get "body" page = Some (VList l)) pages bodies ->
  Forall has_records pages /\ map records pages = bodies.
Proof.
  induction 1 as [|p l ps ls B F [IH1 IH2]]; [split; [constructor|reflexivity]|].
  split.
  - constructor; [now exists l | assumption].
  - simpl. unfold records at 1. rewrite B. now rewrite IH2.
Qed.

(** C2.  A source emits [k] pages, every page but the last with a
    continuation token; [bodies] are the record lists of the pages.  With
    [max_pages=None] the paginator returns the first envelope (same keys,
    same value under every key but ["body"]) whose body is the list of the
    records of all [k] pages in page order, after one request per page.
    With [max_pages=m], [1 <= m < k], the body is the records of the first
    [m] pages and exactly the first [m] requests are sent; for [m = 1]
    that is the first request alone. *)
Theorem make_req_merges_pages :
  forall fuel route params s first rest (bodies : list (list value)),
    let req0 := request_url (self s) route params in
    let pages := first :: rest in
    let reqs := req0 :: next_urls req0 (token first) rest in
    emits (net s) req0 first rest ->
    Forall2 (fun page l => get "body" page = Some (VList l)) pages bodies ->
    ((length rest <= fuel)%nat ->
     exists s' kvs,
       _make_req fuel route params None s = (Ret (VDict kvs), s') /\
       get "body" kvs = Some (VList (concat bodies)) /\
       keys kvs = keys first /\
       (forall k, k <> "body"%string -> get k kvs = get k first) /\
       sent s' = sent s ++ reqs /\
       length reqs = length pages)
    /\
    (forall m : Z,
       1 <= m < Z.of_nat (length pages) ->
       (Z.to_nat m - 1 <= fuel)%nat ->
       exists s' kvs,
         _make_req fuel route params (Some m) s = (Ret (VDict kvs), s') /\
         get "body" kvs = Some (VList (concat (firstn (Z.to_nat m) bodies))) /\
         keys kvs = keys first /\
         (forall k, k <> "body"%string -> get k kvs = get k first) /\
         sent s' = sent s ++ firstn (Z.to_nat m) reqs /\
         length (firstn (Z.to_nat m) reqs) = Z.to_nat m).
Proof.
  intros fuel route params s first rest bodies req0 pages reqs E HB.
  destruct (bodies_records HB) as [R MB].
  assert (B1 : exists b, get "body" first = Some b).
  { inversion HB. subst. eauto. }
  destruct B1 as [b1 B1].
  assert (Lr : forall tok, length (next_urls req0 tok rest) = length rest).
  { clear. induction rest as [|p ps IH]; intro tok; simpl; auto. }
  split.
  - intro Lf.
    destruct (@make_req_follows (length rest) fuel route params None s first rest E R)
      as (s' & Q & _ & Hn); auto; try (intro; lia).
    rewrite firstn_all2 in Q by (simpl; lia). fold pages in Q. rewrite MB in Q.
    destruct (@with_body_list first b1 (concat bodies) B1) as (kvs & W & G & K & O).
    exists s', kvs. rewrite Q, W. subst pages reqs req0.
    rewrite Hn. rewrite !firstn_all2 by (simpl; rewrite ?Lr; lia).
    simpl. rewrite Lr. auto 6.
  - intros m Hm Lf. simpl in Hm.
    destruct (@make_req_follows (Z.to_nat m - 1) fuel route params (Some m) s first rest E R)
      as (s' & Q & _ & Hn); auto; try lia.
    + intros j Hj. unfold cap_reached.
      replace (m =? 0) with false by (symmetry; apply Z.eqb_neq; lia).
      apply Z.leb_gt. lia.
    + intros _. unfold cap_reached.
      replace (m =? 0) with false by (symmetry; apply Z.eqb_neq; lia).
      apply Z.leb_le. lia.
    + replace (S (Z.to_nat m - 1)) with (Z.to_nat m) in * by lia.
      fold pages in Q. rewrite <- firstn_map, MB in Q.
      destruct (@with_body_list first b1 (concat (firstn (Z.to_nat m) bodies)) B1)
        as (kvs & W & G & K & O).
      exists s', kvs. rewrite Q, W. subst pages reqs req0. rewrite Hn.
      repeat (split; [assumption || reflexivity|]).
      apply firstn_length_le. simpl. rewrite Lr. lia.
Qed.

(** C9.  The page cap is tested for truthiness, so [max_pages=0] is no
    cap at all: the call is the same computation as with [max_pages=None],
    and against a source of several pages it follows every token and
    returns all the pages merged. *)
Theorem max_pages_zero_is_unbounded :
  forall fuel route params s,
    _make_req fuel route params (Some 0) s = _make_req fuel route params None s
    /\
    forall first rest,
      let req0 := request_url (self s) route params in
      emits (net s) req0 first rest ->
      Forall has_records (first :: rest) ->
      (length rest <= fuel)%nat ->
      exists s',
        _make_req fuel route params (Some 0) s =
          (Ret (with_body (VDict first)
                  (concat (map records (first :: rest)))), s') /\
        sent s' = sent s ++ req0 :: next_urls req0 (token first) rest.
Proof.
  intros fuel route params s.
  assert (Q : _make_req fuel route params (Some 0) s =
              _make_req fuel route params None s).
  { unfold _make_req. apply bind_ext. intros api s1.
    apply bind_ext. intros out s2. apply bind_ext. intros tok s3.
    apply paginate_zero_cap. }
  split; [exact Q|].
  intros first rest req0 E R Lf. rewrite Q.
  assert (Lr : forall tok, length (next_urls req0 tok rest) = length rest).
  { clear. induction rest as [|p ps IH]; intro tok; simpl; auto. }
  destruct (@make_req_follows (length rest) fuel route params None s first rest E R)
    as (s' & Q' & _ & Hn); auto; try (intro; lia).
  exists s'. rewrite Q', Hn. fold req0.
  rewrite !firstn_all2 by (simpl; rewrite ?Lr; lia). auto.
Qed.

(** One request, whatever the answer's token, when the cap stops the
    first continuation. *)
Lemma make_req_capped_first (fuel : nat) route params mp s first :
  fst (urlopen (net s) (request_url (self s) route params)) = inr (VDict first) ->
  (truthy (token first) = true -> cap_reached mp 1 = true) ->
  _make_req fuel route params mp s =
    (Ret (VDict first),
     {| self := self s;
        net := snd (urlopen (net s) (request_url (self s) route params));
        sent := sent s ++ [request_url (self s) route params] |}).
Proof.
  intros U C. unfold _make_req. unfold bind at 1. unfold get_self.
  unfold bind at 1. rewrite fetch_eq, U.
  unfold bind at 1. unfold lift at 1. rewrite py_get_token.
  rewrite paginate_eq. destruct (truthy (token first)); [|reflexivity].
  now rewrite C.
Qed.

(** C5, as the code has it.  A first answer whose body is not a list:
    - with a token, a cap that allows a second page and a continuation
      request answered by a JSON object, the call sends that one request
      and raises the [TypeError] of the source; nothing is returned;
    - with a token but a cap that forbids a second page ([max_pages=1]),
      the envelope is returned as it came, after one request;
    - without a token the envelope is returned as it came. *)
Theorem scalar_body_pagination :
  forall fuel route params max_pages s first body,
    let req0 := request_url (self s) route params in
    let w1 := snd (urlopen (net s) req0) in
    fst (urlopen (net s) req0) = inr (VDict first) ->
    get "body" first = Some body ->
    (forall l, body <> VList l) ->
    (truthy (token first) = true ->
     cap_reached max_pages 1 = false ->
     forall second,
       fst (urlopen w1 (next_url req0 (token first))) = inr (VDict second) ->
       _make_req (S fuel) route params max_pages s =
         (Raise (Raised TypeError pagination_msg),
          {| self := self s;
             net := snd (urlopen w1 (next_url req0 (token first)));
             sent := sent s ++ [req0; next_url req0 (token first)] |}))
    /\
    (truthy (token first) = true ->
     cap_reached max_pages 1 = true ->
     _make_req fuel route params max_pages s =
       (Ret (VDict first),
        {| self := self s; net := w1; sent := sent s ++ [req0] |}))
    /\
    (truthy (token first) = false ->
     _make_req fuel route params max_pages s =
       (Ret (VDict first),
        {| self := self s; net := w1; sent := sent s ++ [req0] |})).
Proof.
  intros fuel route params max_pages s first body req0 w1 U B NL.
  split; [|split].
  - intros T C second U2.
    unfold _make_req. unfold bind at 1. unfold get_self.
    unfold bind at 1. rewrite fetch_eq. fold req0. rewrite U.
    unfold bind at 1. unfold lift at 1. rewrite py_get_token.
    rewrite paginate_eq, T, C.
    unfold bind at 1. rewrite fetch_eq. simpl net. fold w1. rewrite U2.
    unfold bind at 1. unfold lift at 1. rewrite py_get_token.
    unfold bind at 1. unfold lift at 1. simpl py_item. rewrite B.
    simpl. rewrite <- app_assoc. simpl.
    destruct body; try reflexivity. exfalso. eapply NL. reflexivity.
  - intros T C. apply make_req_capped_first; auto.
  - intros T. apply make_req_capped_first; auto.
    intro T'. rewrite T in T'. discriminate.
Qed.

End Paginator.

(** ** How the methods move the cache *)

Section CacheMoves.

Context {RT : Runtime}.
Variable R : cache -> cache -> Prop.
Hypothesis R_refl : forall c, R c c.
Hypothesis R_trans : forall a b c, R a b -> R b c -> R a c.

Lemma same_endpoint_refl (a : ElementApi) : same_endpoint a a.
Proof. split; reflexivity. Qed.

Lemma same_endpoint_trans (a b c : ElementApi) :
  same_endpoint a b -> same_endpoint b c -> same_endpoint a c.
Proof. unfold same_endpoint. intros [] []. split; congruence. Qed.

Lemma moves_ret {A} (a : A) : moves_cache_by R (ret a).
Proof. intro s. split; [apply same_endpoint_refl | apply R_refl]. Qed.

Lemma moves_raise {A} (e : exn) : moves_cache_by R (@raise _ A e).
Proof. intro s. split; [apply same_endpoint_refl | apply R_refl]. Qed.

Lemma moves_lift {A} (o : outcome A) : moves_cache_by R (lift o).
Proof. intro s. split; [apply same_endpoint_refl | apply R_refl]. Qed.

Lemma moves_get_self : moves_cache_by R get_self.
Proof. intro s. split; [apply same_endpoint_refl | apply R_refl]. Qed.

Lemma moves_fetch (req : string) : moves_cache_by R (fetch req).
Proof.
  intro s. rewrite fetch_eq. simpl.
  split; [apply same_endpoint_refl | apply R_refl].
Qed.

Lemma moves_bind {A B} (m : M A) (f : A -> M B) :
  moves_cache_by R m -> (forall a, moves_cache_by R (f a)) ->
  moves_cache_by R (bind m f).
Proof.
  intros Hm Hf s. unfold bind. specialize (Hm s).
  destruct (m s) as [[a|e|] s1]; simpl in *; auto.
  destruct Hm as [E1 R1]. destruct (Hf a s1) as [E2 R2].
  split; [eapply same_endpoint_trans | eapply R_trans]; eauto.
Qed.

Lemma moves_paginate (fuel : nat) :
  forall req0 mp i out tok, moves_cache_by R (paginate fuel req0 mp i out tok).
Proof.
  induction fuel as [|fuel IH]; intros req0 mp i out tok; simpl;
    destruct (truthy tok); try apply moves_ret;
    destruct (cap_reached mp i); try apply moves_ret; try apply moves_lift.
  apply moves_bind; [apply moves_fetch|]. intro data.
  apply moves_bind; [apply moves_lift|]. intro tok'.
  apply moves_bind; [apply moves_lift|]. intro body.
  destruct body; try apply moves_raise.
  apply moves_bind; [apply moves_lift|]. intro more.
  apply moves_bind; [apply moves_lift|]. intro items.
  apply IH.
Qed.

Lemma moves_make_req (fuel : nat) route params mp :
  moves_cache_by R (_make_req fuel route params mp).
Proof.
  unfold _make_req.
  apply moves_bind; [apply moves_get_self|]. intro api.
  apply moves_bind; [apply moves_fetch|]. intro out.
  apply moves_bind; [apply moves_lift|]. intro tok.
  apply moves_paginate.
Qed.

Lemma moves_get_readings (fuel : nat) name sort dir start end_ limit mp :
  moves_cache_by R (get_readings fuel name sort dir start end_ limit mp).
Proof.
  unfold get_readings. destruct name; try apply moves_raise.
  apply moves_make_req.
Qed.

(** from here on, the two writes of the source on one folder *)
Variable folder : string.
Hypothesis R_touch : forall c, R c (snd (dd_item folder c)).
Hypothesis R_store : forall c k v, R c (dd_store folder k v c).

Lemma store_eq (kv : value) (address : string) (s : state) :
  store folder kv address s =
  match py_key kv with
  | Ret k =>
      (Ret k,
       with_cache s (dd_store folder k address (_id_to_address_mapping (self s))))
  | Raise e =>
      (Raise e,
       with_cache s (snd (dd_item folder (_id_to_address_mapping (self s)))))
  | OutOfFuel =>
      (OutOfFuel,
       with_cache s (snd (dd_item folder (_id_to_address_mapping (self s)))))
  end.
Proof.
  unfold store, touch, dd_store, bind, get_self, set_cache, lift, ret, with_cache.
  simpl. destruct (dd_item folder (_id_to_address_mapping (self s))) as [inner c1].
  simpl. destruct (py_key kv); reflexivity.
Qed.

Lemma moves_store (kv : value) (address : string) :
  moves_cache_by R (store folder kv address).
Proof.
  intro s. rewrite store_eq.
  destruct (py_key kv); simpl; (split; [split; reflexivity|]); auto.
Qed.

Lemma moves_probe_device (fuel : nat) (id : Z) (i : value) :
  moves_cache_by R (probe_device fuel id folder i).
Proof.
  unfold probe_device.
  apply moves_bind; [apply moves_lift|]. intro addr.
  apply moves_bind; [apply moves_get_self|]. intro api.
  destruct (already_probed _ _ _); [apply moves_ret|].
  apply moves_bind; [apply moves_get_readings|]. intro resp.
  apply moves_bind; [apply moves_lift|]. intro kv.
  destruct addr; try apply moves_raise.
  apply moves_bind; [apply moves_store|]. intro k.
  destruct (keqb k (KInt id)); apply moves_ret.
Qed.

Lemma moves_probe_devices (fuel : nat) (id : Z) (devices : list value) :
  moves_cache_by R (probe_devices fuel id folder devices).
Proof.
  induction devices as [|i rest IH]; simpl; [apply moves_ret|].
  apply moves_bind; [apply moves_probe_device|].
  intros [a|]; [apply moves_ret | apply IH].
Qed.

Lemma moves_address_from_decentlab_id (fuel : nat) (id : Z) :
  moves_cache_by R (address_from_decentlab_id fuel id folder).
Proof.
  unfold address_from_decentlab_id.
  apply moves_bind; [apply moves_get_self|]. intro api.
  destruct (cached_address _ _ _); [apply moves_ret|].
  apply moves_bind; [apply moves_make_req|]. intro devices.
  apply moves_bind; [apply moves_lift|]. intro body.
  apply moves_bind; [apply moves_lift|]. intro items.
  apply moves_bind; [apply moves_probe_devices|].
  intros [a|]; [apply moves_ret | apply moves_raise].
Qed.

Lemma moves_decentlab_id_from_address (fuel : nat) (address : string) :
  moves_cache_by R (decentlab_id_from_address fuel address folder).
Proof.
  unfold decentlab_id_from_address.
  apply moves_bind; [apply moves_get_self|]. intro api.
  assert (Miss : moves_cache_by R
            (bind (get_device fuel address) (fun resp =>
             bind (lift (py_item resp "body")) (fun device =>
             bind (lift (and_then (seriennummer device) py_int)) (fun n =>
             store folder (VInt n) address))))).
  { apply moves_bind; [apply moves_make_req|]. intro resp.
    apply moves_bind; [apply moves_lift|]. intro device.
    apply moves_bind; [apply moves_lift|]. intro n.
    apply moves_store. }
  destruct (cached_id _ _ _) as [[| |]|]; try apply moves_ret; exact Miss.
Qed.

End CacheMoves.

(** ** Strings *)

Lemma length_append (a b : string) :
  String.length (a ++ b)%string = (String.length a + String.length b)%nat.
Proof. induction a as [|c a IH]; simpl; auto. Qed.

Lemma append_assoc (a b c : string) :
  ((a ++ b) ++ c = a ++ (b ++ c))%string.
Proof. induction a as [|x a IH]; simpl; [reflexivity | now rewrite IH]. Qed.

Lemma append_inv_head (p a b : string) : (p ++ a = p ++ b)%string -> a = b.
Proof. induction p as [|c p IH]; simpl; intro E; [|inversion E]; auto. Qed.

Lemma append_inv_tail (t : string) :
  forall a b : string, (a ++ t = b ++ t)%string -> a = b.
Proof.
  induction a as [|c a IH]; intros [|c' b] E; simpl in E; auto.
  - apply (f_equal String.length) in E. simpl in E.
    rewrite length_append in E. lia.
  - apply (f_equal String.length) in E. simpl in E.
    rewrite length_append in E. lia.
  - inversion E. f_equal. auto.
Qed.

(** ** Probing devices *)

Section Probing.

Context {RT : Runtime}.

Lemma self_ext (a b : ElementApi) :
  same_endpoint a b -> _id_to_address_mapping a = _id_to_address_mapping b ->
  a = b.
Proof. destruct a, b. unfold same_endpoint. simpl. intros [] ?. congruence. Qed.

(** A request never touches the client object. *)
Lemma make_req_self (fuel : nat) route params mp (s : state) :
  self (snd (_make_req fuel route params mp s)) = self s.
Proof.
  destruct (@moves_make_req RT eq (@eq_refl _) (@eq_trans _) fuel route params mp s)
    as [E C].
  symmetry. now apply self_ext.
Qed.

Lemma probe_url_inj (api : ElementApi) (a b : string) :
  probe_url api a = probe_url api b -> a = b.
Proof.
  unfold probe_url, request_url, readings_route. intro E.
  apply append_inv_head in E. simpl in E.
  inversion E as [E']. clear E.
  apply append_inv_tail in E'. now apply append_inv_tail in E'.
Qed.

Lemma probe_url_endpoint (api api' : ElementApi) (a : string) :
  same_endpoint api api' -> probe_url api' a = probe_url api a.
Proof.
  intros [L K]. unfold probe_url, request_url. now rewrite L, K.
Qed.

Lemma reading_id_dict (r kv : value) :
  reading_id r = Ret kv -> exists env, r = VDict env.
Proof. destruct r; try discriminate. eauto. Qed.

(** a probe is one request, whatever token the answer carries *)
Lemma get_readings_probe (fuel : nat) (a : string) (env : list (string * value))
    (s : state) :
  fst (urlopen (net s) (probe_url (self s) a)) = inr (VDict env) ->
  get_readings fuel (VStr a) "measured_at" "asc" None None 1 (Some 1) s =
    (Ret (VDict env),
     {| self := self s;
        net := snd (urlopen (net s) (probe_url (self s) a));
        sent := sent s ++ [probe_url (self s) a] |}).
Proof.
  intro U. unfold get_readings.
  apply (@make_req_capped_first RT fuel); auto.
Qed.

Lemma probe_device_skips (fuel : nat) (id : Z) folder i v (s : state) :
  py_item i "name" = Ret v ->
  already_probed (_id_to_address_mapping (self s)) folder v = true ->
  probe_device fuel id folder i s = (Ret None, s).
Proof.
  intros N P. unfold probe_device, bind, lift, get_self. rewrite N, P.
  reflexivity.
Qed.

Lemma probe_device_probes (fuel : nat) (id : Z) folder i a r kv k (s : state) :
  py_item i "name" = Ret (VStr a) ->
  already_probed (_id_to_address_mapping (self s)) folder (VStr a) = false ->
  fst (urlopen (net s) (probe_url (self s) a)) = inr r ->
  reading_id r = Ret kv ->
  py_key kv = Ret k ->
  probe_device fuel id folder i s =
    (Ret (if keqb k (KInt id) then Some a else None),
     {| self := {| api_location := api_location (self s);
                   api_key := api_key (self s);
                   _id_to_address_mapping :=
                     dd_store folder k a (_id_to_address_mapping (self s)) |};
        net := snd (urlopen (net s) (probe_url (self s) a));
        sent := sent s ++ [probe_url (self s) a] |}).
Proof.
  intros N P U I Hk. destruct (reading_id_dict _ I) as [env ->].
  unfold probe_device. unfold bind at 1. unfold lift at 1. rewrite N.
  unfold bind at 1. unfold get_self at 1. rewrite P.
  unfold bind at 1. rewrite (get_readings_probe fuel a s U).
  unfold bind at 1. unfold lift at 1. rewrite I.
  unfold bind at 1. rewrite store_eq, Hk. unfold with_cache. simpl.
  destruct (pykey_eqb k (KInt id)); reflexivity.
Qed.

Lemma probe_device_no_reading (fuel : nat) (id : Z) folder i a env (s : state) :
  py_item i "name" = Ret (VStr a) ->
  already_probed (_id_to_address_mapping (self s)) folder (VStr a) = false ->
  fst (urlopen (net s) (probe_url (self s) a)) = inr (VDict env) ->
  get "body" env = Some (VList []) ->
  probe_device fuel id folder i s =
    (Raise (Builtin IndexError),
     {| self := self s;
        net := snd (urlopen (net s) (probe_url (self s) a));
        sent := sent s ++ [probe_url (self s) a] |}).
Proof.
  intros N P U B.
  unfold probe_device. unfold bind at 1. unfold lift at 1. rewrite N.
  unfold bind at 1. unfold get_self at 1. rewrite P.
  unfold bind at 1. rewrite (get_readings_probe fuel a s U).
  unfold bind at 1. unfold lift at 1. unfold reading_id. simpl py_item.
  rewrite B. reflexivity.
Qed.

Lemma probe_devices_cons (fuel : nat) (id : Z) folder i rest (s : state) :
  probe_devices fuel id folder (i :: rest) s =
  match probe_device fuel id folder i s with
  | (Ret (Some a), s') => (Ret (Some a), s')
  | (Ret None, s') => probe_devices fuel id folder rest s'
  | (Raise e, s') => (Raise e, s')
  | (OutOfFuel, s') => (OutOfFuel, s')
  end.
Proof.
  simpl. unfold bind.
  destruct (probe_device fuel id folder i s) as [[[a|]|e|] s']; reflexivity.
Qed.

Lemma probe_devices_app (fuel : nat) (id : Z) folder (pre post : list value) :
  forall s s1,
    probe_devices fuel id folder pre s = (Ret None, s1) ->
    probe_devices fuel id folder (pre ++ post) s =
    probe_devices fuel id folder post s1.
Proof.
  induction pre as [|i pre IH]; intros s s1 E; simpl in *.
  - unfold ret in E. now inversion E.
  - unfold bind in *.
    destruct (probe_device fuel id folder i s) as [[[a|]|e|] s2];
      try discriminate; eauto.
Qed.

Lemma already_probed_spec (c : cache) (folder a : string) :
  already_probed c folder (VStr a) = true <->
  In a (values (folder_map c folder)).
Proof.
  unfold already_probed, folder_map.
  destruct (get folder c) as [inner|]; [|simpl; split; [discriminate|tauto]].
  destruct inner as [|kv inner]; [simpl; split; [discriminate|tauto]|].
  simpl nonempty. rewrite andb_true_l, existsb_exists. split.
  - intros (x & Hx & E). apply String.eqb_eq in E. now subst.
  - intro Hin. exists a. split; [assumption | apply String.eqb_refl].
Qed.

Lemma folder_map_dd_store (c : cache) (folder : string) (k : pykey) (a : string) :
  folder_map (dd_store folder k a c) folder = set k a (folder_map c folder).
Proof.
  unfold folder_map, dd_store, dd_item.
  destruct (get folder c) as [inner|]; now rewrite get_set_same.
Qed.

Lemma values_set_incl {K V} `{Key K} (k : K) (v x : V) (d : odict K V) :
  In x (values (set k v d)) -> x = v \/ In x (values d).
Proof.
  unfold values. induction d as [|[k0 v0] d IH]; simpl.
  - intros [E|[]]; auto.
  - destruct (keqb k k0); simpl; intros [E|E]; auto.
    destruct (IH E); auto.
Qed.

(** C1.  The folder lists the devices [D1; D2; D3], whose readings carry
    the ids 11, 22 and 33, and nothing is cached.  Resolving 22 probes D1,
    then D2, sends no request for D3, returns the address of D2 and
    leaves exactly 11 -> D1 and 22 -> D2 in the cache of the folder. *)
Theorem probe_short_circuit :
  forall fuel folder s s1 devices D1 D2 D3 a1 a2 a3 r1 r2 r3,
    _id_to_address_mapping (self s) = [] ->
    get_devices fuel folder s = (Ret devices, s1) ->
    py_item devices "body" = Ret (VList [D1; D2; D3]) ->
    py_item D1 "name" = Ret (VStr a1) ->
    py_item D2 "name" = Ret (VStr a2) ->
    py_item D3 "name" = Ret (VStr a3) ->
    (forall w, fst (urlopen w (probe_url (self s) a1)) = inr r1) ->
    (forall w, fst (urlopen w (probe_url (self s) a2)) = inr r2) ->
    (forall w, fst (urlopen w (probe_url (self s) a3)) = inr r3) ->
    reading_id r1 = Ret (VInt 11) ->
    reading_id r2 = Ret (VInt 22) ->
    reading_id r3 = Ret (VInt 33) ->
    exists s',
      address_from_decentlab_id fuel 22 folder s = (Ret a2, s') /\
      sent s' = sent s1 ++ [probe_url (self s) a1; probe_url (self s) a2] /\
      ~ In (probe_url (self s) a3)
          [probe_url (self s) a1; probe_url (self s) a2] /\
      _id_to_address_mapping (self s') =
        [(folder, [(KInt 11, a1); (KInt 22, a2)])].
Proof.
  intros fuel folder s s1 devices D1 D2 D3 a1 a2 a3 r1 r2 r3
    Empty Hdev Hbody N1 N2 N3 U1 U2 U3 I1 I2 I3.
  assert (Hs1 : self s1 = self s).
  { pose proof (make_req_self fuel (devices_route folder) [] None s) as F.
    unfold get_devices in Hdev. now rewrite Hdev in F. }
  assert (Distinct : forall x y rx ry (n m : Z),
             (forall w, fst (urlopen w (probe_url (self s) x)) = inr rx) ->
             (forall w, fst (urlopen w (probe_url (self s) y)) = inr ry) ->
             reading_id rx = Ret (VInt n) -> reading_id ry = Ret (VInt m) ->
             n <> m -> x <> y).
  { intros x y rx ry n m Ux Uy Ix Iy Hnm ->.
    specialize (Ux (net s)). rewrite (Uy (net s)) in Ux. inversion Ux. subst.
    rewrite Ix in Iy. inversion Iy. contradiction. }
  assert (A12 : a1 <> a2) by (eapply Distinct; eauto; lia).
  assert (A31 : a3 <> a1) by (eapply Distinct; eauto; lia).
  assert (A32 : a3 <> a2) by (eapply Distinct; eauto; lia).
  eexists. split; [|split; [|split]].
  - unfold address_from_decentlab_id. unfold bind at 1. unfold get_self at 1.
    rewrite Empty. change (cached_address [] 22 folder) with (@None string).
    cbv iota. unfold bind at 1. rewrite Hdev.
    unfold bind at 1. unfold lift at 1. rewrite Hbody.
    unfold bind at 1. unfold lift at 1. simpl py_iter.
    assert (P1 : already_probed (_id_to_address_mapping (self s1)) folder
                   (VStr a1) = false) by (rewrite Hs1, Empty; reflexivity).
    assert (V1 : fst (urlopen (net s1) (probe_url (self s1) a1)) = inr r1)
      by (rewrite Hs1; apply U1).
    unfold bind at 1. rewrite probe_devices_cons.
    rewrite (@probe_device_probes fuel 22 folder D1 a1 r1 (VInt 11) (KInt 11)
               s1 N1 P1 V1 I1 eq_refl).
    change (keqb (KInt 11) (KInt 22)) with false. cbv iota.
    match goal with
    | |- context [probe_devices fuel 22 folder _ ?st] => set (s2 := st)
    end.
    assert (P2 : already_probed (_id_to_address_mapping (self s2)) folder
                   (VStr a2) = false).
    { subst s2. simpl. rewrite Hs1, Empty. unfold dd_store. simpl.
      rewrite String.eqb_refl. simpl. unfold already_probed. simpl.
      rewrite String.eqb_refl. simpl.
      rewrite orb_false_r. apply String.eqb_neq. congruence. }
    assert (V2 : fst (urlopen (net s2) (probe_url (self s2) a2)) = inr r2).
    { rewrite (@probe_url_endpoint (self s) (self s2) a2).
      - apply U2.
      - subst s2. simpl. rewrite Hs1. split; reflexivity. }
    rewrite probe_devices_cons.
    rewrite (@probe_device_probes fuel 22 folder D2 a2 r2 (VInt 22) (KInt 22)
               s2 N2 P2 V2 I2 eq_refl).
    change (keqb (KInt 22) (KInt 22)) with true. cbv iota.
    unfold ret. reflexivity.
  - simpl. rewrite <- app_assoc. simpl. rewrite Hs1. reflexivity.
  - simpl. intros [E|[E|[]]]; apply probe_url_inj in E; congruence.
  - simpl. rewrite Hs1, Empty. unfold dd_store. simpl.
    rewrite String.eqb_refl. simpl. unfold dd_item. simpl.
    rewrite String.eqb_refl. simpl. rewrite String.eqb_refl. reflexivity.
Qed.

(** C10.  The loop reaches an uncached device whose readings answer has
    an empty body: [resp['body'][0]] raises [IndexError], which ends the
    call.  The device is neither skipped nor cached, and the error is not
    the [ValueError] of an unresolved id. *)
Theorem probe_without_readings_raises_IndexError :
  forall fuel id folder s s1 s2 devices body pre d post a env,
    cached_address (_id_to_address_mapping (self s)) id folder = None ->
    get_devices fuel folder s = (Ret devices, s1) ->
    py_item devices "body" = Ret body ->
    py_iter body = Ret (pre ++ d :: post) ->
    probe_devices fuel id folder pre s1 = (Ret None, s2) ->
    py_item d "name" = Ret (VStr a) ->
    already_probed (_id_to_address_mapping (self s2)) folder (VStr a) = false ->
    fst (urlopen (net s2) (probe_url (self s2) a)) = inr (VDict env) ->
    get "body" env = Some (VList []) ->
    address_from_decentlab_id fuel id folder s =
      (Raise (Builtin IndexError),
       {| self := self s2;
          net := snd (urlopen (net s2) (probe_url (self s2) a));
          sent := sent s2 ++ [probe_url (self s2) a] |})
    /\ ~ exn_is ValueError (Builtin IndexError).
Proof.
  intros fuel id folder s s1 s2 devices body pre d post a env
    Miss Hdev Hbody Hiter Hpre N P U B.
  split; [|simpl; discriminate].
  unfold address_from_decentlab_id. unfold bind at 1. unfold get_self at 1.
  rewrite Miss.
  unfold bind at 1. rewrite Hdev.
  unfold bind at 1. unfold lift at 1. rewrite Hbody.
  unfold bind at 1. unfold lift at 1. rewrite Hiter.
  unfold bind at 1. rewrite (@probe_devices_app fuel id folder pre (d :: post) s1 s2 Hpre).
  simpl probe_devices. unfold bind at 1.
  now rewrite (@probe_device_no_reading fuel id folder d a env s2 N P U B).
Qed.

Lemma get_values {K V} `{Key K} (k : K) (v : V) (d : odict K V) :
  get k d = Some v -> In v (values d).
Proof.
  intro G. apply get_In in G. unfold values.
  change v with (snd (k, v)). now apply in_map.
Qed.

(** The loop over devices that all answer their probe with an id other
    than the one looked for ([idof a] is the id in the readings of [a]):
    it runs to its end.  A device is probed again only when its entry has
    been overwritten since its last probe, which takes another device
    with the same id. *)
Lemma probe_devices_exhausts (fuel : nat) (id : Z) (folder : string)
    (idof : string -> pykey) :
  forall items names,
    Forall2 (fun d a => py_item d "name" = Ret (VStr a)) items names ->
    forall s,
      (forall a w, In a names ->
         exists r kv,
           fst (urlopen w (probe_url (self s) a)) = inr r /\
           reading_id r = Ret kv /\ py_key kv = Ret (idof a) /\
           idof a <> KInt id) ->
      exists s' probed,
        probe_devices fuel id folder items s = (Ret None, s') /\
        same_endpoint (self s) (self s') /\
        sent s' = sent s ++ map (probe_url (self s)) probed /\
        incl probed names /\
        (NoDup names -> NoDup probed) /\
        (forall a, In a names ->
           ~ In a (values (folder_map (_id_to_address_mapping (self s)) folder)) ->
           In a probed) /\
        (forall all seen,
           incl names all ->
           (forall a b, In a all -> In b all -> idof a = idof b -> a = b) ->
           incl seen all ->
           (forall x, In x seen ->
              get (idof x) (folder_map (_id_to_address_mapping (self s)) folder)
                = Some x) ->
           NoDup probed /\ forall x, In x seen -> ~ In x probed).
Proof.
  induction 1 as [|d a items names N F IH]; intros s Hp.
  - exists s, []. simpl. rewrite app_nil_r.
    repeat split; auto using incl_nil_l; try (intros a []); try constructor.
  - destruct (already_probed (_id_to_address_mapping (self s)) folder (VStr a))
      eqn:P.
    + destruct (IH s) as (s' & probed & E & EP & Hs & Hi & Hn & Hc & Ho).
      { intros a' w Ha'. apply Hp. now right. }
      exists s', probed. rewrite probe_devices_cons.
      rewrite (@probe_device_skips fuel id folder d (VStr a) s N P).
      refine (conj E (conj EP (conj Hs (conj _ (conj _ (conj _ _)))))).
      * now apply incl_tl.
      * intro ND. inversion ND. auto.
      * intros a' [->|Ha'] Hv; auto.
        apply already_probed_spec in P. contradiction.
      * intros all seen Ia Inj Is Hseen. apply (Ho all seen); auto.
        intros x Hx. apply Ia. now right.
    + destruct (Hp a (net s)) as (r & kv & U & I & Hk & Kne); [now left|].
      set (s2 := {| self := {| api_location := api_location (self s);
                               api_key := api_key (self s);
                               _id_to_address_mapping :=
                                 dd_store folder (idof a) a
                                   (_id_to_address_mapping (self s)) |};
                    net := snd (urlopen (net s) (probe_url (self s) a));
                    sent := sent s ++ [probe_url (self s) a] |}).
      assert (EP2 : same_endpoint (self s) (self s2)) by (split; reflexivity).
      destruct (IH s2) as (s' & probed & E & EP & Hs & Hi & Hn & Hc & Ho).
      { intros a' w Ha'.
        rewrite (@probe_url_endpoint (self s) (self s2) a' EP2).
        apply Hp. now right. }
      exists s', (a :: probed). rewrite probe_devices_cons.
      rewrite (@probe_device_probes fuel id folder d a r kv (idof a) s N P U I Hk).
      assert (Kf : keqb (idof a) (KInt id) = false) by now apply keqb_neq.
      rewrite Kf. fold s2.
      assert (Na : ~ In a (values (folder_map (_id_to_address_mapping (self s))
                                     folder))).
      { intro Hin. apply already_probed_spec in Hin. congruence. }
      refine (conj E (conj (same_endpoint_trans EP2 EP)
                (conj _ (conj _ (conj _ (conj _ _)))))).
      * rewrite Hs. simpl. rewrite <- app_assoc. reflexivity.
      * intros x [->|Hx]; [now left | right; auto].
      * intro ND. inversion ND as [|? ? Na' ND']. subst.
        constructor; auto.
      * intros a' [->|Ha'] Hv; [now left|].
        destruct (String.eqb a' a) eqn:Ea.
        -- apply String.eqb_eq in Ea. subst. now left.
        -- right. apply Hc; auto. simpl. rewrite folder_map_dd_store.
           intro Hin. apply values_set_incl in Hin. destruct Hin as [->|Hin].
           ++ rewrite String.eqb_refl in Ea. discriminate.
           ++ contradiction.
      * intros all seen Ia Inj Is Hseen.
        assert (Sa : forall x, In x seen -> x <> a).
        { intros x Hx ->. apply Na. eapply get_values. now apply Hseen. }
        destruct (Ho all (a :: seen)) as [ND Hd].
        -- intros x Hx. apply Ia. now right.
        -- exact Inj.
        -- intros x [<-|Hx]; [apply Ia; now left | now apply Is].
        -- intros x Hx. simpl. rewrite folder_map_dd_store.
           destruct Hx as [<-|Hx]; [apply get_set_same|].
           rewrite get_set_other; [now apply Hseen|].
           intro Ek. apply (Sa x Hx). apply Inj; auto.
           apply Ia. now left.
        -- split.
           ++ constructor; [apply Hd; now left | exact ND].
           ++ intros x Hx [E'|Hin]; [now apply (Sa x Hx) |].
              apply (Hd x); [now right | exact Hin].
Qed.

Lemma to_int_not_nil (z : Z) :
  Z.to_int z <> Decimal.Pos Decimal.Nil /\ Z.to_int z <> Decimal.Neg Decimal.Nil.
Proof.
  split; intro H; pose proof (DecimalZ.of_to z) as O; rewrite H in O;
    simpl in O; subst z; discriminate H.
Qed.

(** the decimal text of an integer tells the integer *)
Lemma str_of_int_inj (n m : Z) : str_of_int n = str_of_int m -> n = m.
Proof.
  unfold str_of_int. intro E.
  apply DecimalZ.to_int_inj.
  apply (f_equal NilZero.int_of_string) in E.
  destruct (to_int_not_nil n), (to_int_not_nil m).
  rewrite !NilZero.isi in E by assumption. now inversion E.
Qed.

(** C4, as the code has it.  The id is not cached and every device [a] of
    the folder answers its probe with an id [idof a] other than the one
    looked for.  The call raises [ValueError] with the message
    ["unable to find address for station: "] followed by the decimal text
    of the id, a text that tells the id, and returns nothing.  By then it
    has sent, after the device listing, the probes of [probed]: devices of
    the folder, among them every device whose address was not cached when
    the call began.  No device is probed twice when the listing names no
    device twice, or when no two devices of the folder answer with the
    same id. *)
Theorem unresolvable_id_raises_after_probing :
  forall fuel id folder s s1 devices body items names
         (idof : string -> pykey),
    cached_address (_id_to_address_mapping (self s)) id folder = None ->
    get_devices fuel folder s = (Ret devices, s1) ->
    py_item devices "body" = Ret body ->
    py_iter body = Ret items ->
    Forall2 (fun d a => py_item d "name" = Ret (VStr a)) items names ->
    (forall a w, In a names ->
       exists r kv,
         fst (urlopen w (probe_url (self s) a)) = inr r /\
         reading_id r = Ret kv /\ py_key kv = Ret (idof a) /\
         idof a <> KInt id) ->
    exists s' probed,
      address_from_decentlab_id fuel id folder s =
        (Raise (Raised ValueError
                  ("unable to find address for station: " ++ str_of_int id)%string),
         s') /\
      (forall id' : Z,
         ("unable to find address for station: " ++ str_of_int id')%string =
         ("unable to find address for station: " ++ str_of_int id)%string ->
         id' = id) /\
      sent s' = sent s1 ++ map (probe_url (self s)) probed /\
      incl probed names /\
      (forall a, In a names ->
         already_probed (_id_to_address_mapping (self s)) folder (VStr a) = false ->
         In a probed) /\
      (NoDup names \/
       (forall a b, In a names -> In b names -> idof a = idof b -> a = b) ->
       NoDup probed).
Proof.
  intros fuel id folder s s1 devices body items names idof
    Miss Hdev Hbody Hiter Hnames Hp.
  assert (Hs1 : self s1 = self s).
  { pose proof (make_req_self fuel (devices_route folder) [] None s) as F.
    unfold get_devices in Hdev. now rewrite Hdev in F. }
  destruct (@probe_devices_exhausts fuel id folder idof items names Hnames s1)
    as (s' & probed & E & EP & Hs & Hi & Hn & Hc & Ho).
  { rewrite Hs1. exact Hp. }
  exists s', probed.
  refine (conj _ (conj _ (conj _ (conj Hi (conj _ _))))).
  - unfold address_from_decentlab_id. unfold bind at 1. unfold get_self at 1.
    rewrite Miss.
    unfold bind at 1. rewrite Hdev.
    unfold bind at 1. unfold lift at 1. rewrite Hbody.
    unfold bind at 1. unfold lift at 1. rewrite Hiter.
    unfold bind at 1. rewrite E. reflexivity.
  - intros id' Em. apply append_inv_head in Em. now apply str_of_int_inj.
  - rewrite Hs, Hs1. reflexivity.
  - intros a Ha P. apply Hc; auto. rewrite Hs1. intro Hin.
    apply already_probed_spec in Hin. congruence.
  - intros [ND|Inj]; [now apply Hn|].
    apply (Ho names []); auto using incl_refl, incl_nil_l.
    intros x [].
Qed.

End Probing.

(** ** The cache and its reversed view *)

Section ODictMore.
Context {K V : Type} `{Key K}.

Lemma get_app (k : K) (d1 d2 : odict K V) :
    get k (d1 ++ d2) =
    match get k d1 with Some v => Some v | None => get k d2 end.
Proof.
    induction d1 as [|[k0 v0] d1 IH]; simpl; [reflexivity|].
    now destruct (keqb k k0).
Qed.

Lemma In_set (k k' : K) (v v' : V) (d : odict K V) :
    In (k', v') (set k v d) -> In (k', v') d \/ (k' = k /\ v' = v).
Proof.
    induction d as [|[k0 v0] d IH]; simpl.
    - intros [E|[]]. inversion E. auto.
    - destruct (keqb k k0) eqn:E; simpl.
      + apply keqb_eq in E. subst k0. intros [G|G]; [inversion G|]; auto.
      + intros [G|G]; auto. destruct (IH G); auto.
Qed.

Lemma get_Some_nonempty (k : K) (v : V) (d : odict K V) :
    get k d = Some v -> nonempty d = true.
Proof. destruct d; [discriminate | reflexivity]. Qed.
End ODictMore.

Section Inversion.

Lemma invert_snoc (d : odict pykey string) (k : pykey) (a : string) :
    invert (d ++ [(k, a)]) = set a k (invert d).
Proof. unfold invert. now rewrite fold_left_app. Qed.

  (** what the reversed view answers is an entry of the forward map *)
Lemma get_invert_In (d : odict pykey string) (a : string) (n : pykey) :
    get a (invert d) = Some n -> In (n, a) d.
Proof.
    induction d as [|[k a'] d IH] using rev_ind; [discriminate|].
    rewrite invert_snoc. intro G. apply in_or_app.
    destruct (String.eqb a' a) eqn:E.
    - apply String.eqb_eq in E. subst a'. rewrite get_set_same in G.
      inversion G. right. now left.
    - apply String.eqb_neq in E. rewrite get_set_other in G by assumption.
      left. auto.
Qed.

  (** an address cached under one id only is answered with that id *)
Lemma In_get_invert (d : odict pykey string) (a : string) (n : pykey) :
    (forall n', In (n', a) d -> n' = n) ->
    In (n, a) d -> get a (invert d) = Some n.
Proof.
    induction d as [|[k a'] d IH] using rev_ind; [contradiction|].
    intros Uniq Hin. rewrite invert_snoc.
    destruct (String.eqb a' a) eqn:E.
    - apply String.eqb_eq in E. subst a'. rewrite get_set_same. f_equal.
      apply Uniq. apply in_or_app. right. now left.
    - apply String.eqb_neq in E. rewrite get_set_other by assumption.
      apply IH.
      + intros n' Hn'. apply Uniq. apply in_or_app. now left.
      + apply in_app_or in Hin. destruct Hin as [|[G|[]]]; [assumption|].
        inversion G. congruence.
Qed.

Lemma address_view_snoc (c : cache) (f : string) (inner : odict pykey string) :
    _address_to_id_mapping (c ++ [(f, inner)]) =
    set f (invert inner) (_address_to_id_mapping c).
Proof. unfold _address_to_id_mapping. now rewrite fold_left_app. Qed.

  (** the reversed view has the folders of the cache, each inverted *)
Lemma get_address_view (c : cache) (f : string) :
    ok c ->
    get f (_address_to_id_mapping c) = option_map invert (get f c).
Proof.
    unfold ok, keys.
    induction c as [|[f' inner] c IH] using rev_ind; intro N; [reflexivity|].
    rewrite address_view_snoc, get_app. rewrite map_app in N. simpl in N.
    assert (Nc : NoDup (map fst c)) by (eapply NoDup_app_remove_r; eauto).
    destruct (String.eqb f' f) eqn:E.
    - apply String.eqb_eq in E. subst f'. rewrite get_set_same.
      assert (G : get f c = None).
      { apply get_None_keys. unfold keys. intro Hin.
        apply NoDup_remove_2 in N. rewrite app_nil_r in N. contradiction. }
      rewrite G. simpl. change (keqb f f) with (String.eqb f f).
      now rewrite String.eqb_refl.
    - assert (E' : (f =? f')%string = false).
      { rewrite String.eqb_sym. exact E. }
      apply String.eqb_neq in E. rewrite get_set_other by assumption.
      rewrite IH by assumption. simpl.
      change (keqb f f') with (String.eqb f f'). rewrite E'.
      now destruct (get f c).
Qed.

Lemma cache_ok_inner (c : cache) (f : string) (inner : odict pykey string) :
    cache_ok c -> get f c = Some inner -> ok inner.
Proof. intros [_ Hin] G. apply (Hin f). now apply get_In. Qed.

  (** forward entry from reverse entry, in any well-formed cache *)
Lemma reverse_entry_forward (c : cache) (folder a : string) (n : pykey) :
    cache_ok c ->
    lookup (_address_to_id_mapping c) folder a = Some n ->
    lookup c folder n = Some a.
Proof.
    intros Hok. unfold lookup. rewrite get_address_view by apply Hok.
    destruct (get folder c) as [inner|] eqn:G; simpl; [|discriminate].
    intro Hr. apply get_invert_In in Hr.
    apply In_get; [eapply cache_ok_inner; eauto | assumption].
Qed.

  (** reverse entry from forward entry, when the folder is injective *)
Lemma forward_entry_reverse (c : cache) (folder a : string) (n : pykey) :
    cache_ok c ->
    injective_in c folder ->
    lookup c folder n = Some a ->
    lookup (_address_to_id_mapping c) folder a = Some n.
Proof.
    intros Hok Inj. unfold lookup. rewrite get_address_view by apply Hok.
    destruct (get folder c) as [inner|] eqn:G; simpl; [|discriminate].
    intro Hf. apply In_get_invert; [|now apply get_In].
    intros n' Hn'. apply (Inj n' n a); unfold lookup; rewrite G; auto.
    apply In_get; [eapply cache_ok_inner; eauto | assumption].
Qed.

Lemma cache_ok_touch (folder : string) (c : cache) :
    cache_ok c -> cache_ok (snd (dd_item folder c)).
Proof.
    intros [Ho Hi]. unfold dd_item. destruct (get folder c); simpl; [now split|].
    split; [now apply ok_set|].
    intros f inner Hin. apply In_set in Hin. destruct Hin as [Hin|[_ ->]].
    - eauto.
    - constructor.
Qed.

Lemma cache_ok_store (folder : string) (k : pykey) (a : string) (c : cache) :
    cache_ok c -> cache_ok (dd_store folder k a c).
Proof.
    intro Hok. pose proof (cache_ok_touch folder Hok) as [Ho Hi].
    unfold dd_store. unfold dd_item in *.
    destruct (get folder c) as [inner|] eqn:G; simpl in *.
    - split; [now apply ok_set|].
      intros f inner' Hin. apply In_set in Hin. destruct Hin as [Hin|[_ ->]].
      + eauto.
      + apply ok_set. eapply cache_ok_inner; eauto.
    - split; [now apply ok_set|].
      intros f inner' Hin. apply In_set in Hin. destruct Hin as [Hin|[_ ->]].
      + eauto.
      + unfold ok. simpl. constructor; [simpl; tauto | constructor].
Qed.



Lemma lookup_store_same (folder : string) (k : pykey) (a : string) (c : cache) :
    lookup (dd_store folder k a c) folder k = Some a.
Proof.
    change (dd_store folder k a c) with (dd_store folder k a c).
    unfold lookup.
    pose proof (folder_map_dd_store c folder k a) as F. unfold folder_map in F.
    destruct (get folder (dd_store folder k a c)) as [inner|] eqn:G.
    - rewrite F. apply get_set_same.
    - unfold dd_store, dd_item in G.
      destruct (get folder c); rewrite get_set_same in G; discriminate.
Qed.

End Inversion.

(** ** Sessions *)

Section Sessions.

Context {RT : Runtime}.

Local Notation "'cache_of' s" := (_id_to_address_mapping (self s))
  (at level 10, s at level 9, only parsing).

Lemma exec_moves (R : cache -> cache -> Prop) :
  (forall c, R c c) ->
  (forall a b c, R a b -> R b c -> R a c) ->
  forall (cl : call) (s : state),
    (forall folder, call_folder cl = Some folder ->
       (forall c, R c (snd (dd_item folder c))) /\
       (forall c k v, R c (dd_store folder k v c))) ->
    R (cache_of s) (cache_of (exec cl s)).
Proof.
  intros Rr Rt [fuel address folder | fuel id folder | fuel route params mp] s Hw;
    simpl.
  - destruct (Hw folder eq_refl) as [Ht Hs].
    apply (@moves_decentlab_id_from_address RT R Rr Rt folder Ht Hs fuel address s).
  - destruct (Hw folder eq_refl) as [Ht Hs].
    apply (@moves_address_from_decentlab_id RT R Rr Rt folder Ht Hs fuel id s).
  - apply (@moves_make_req RT R Rr Rt fuel route params mp s).
Qed.

Lemma run_moves (R : cache -> cache -> Prop) :
  (forall c, R c c) ->
  (forall a b c, R a b -> R b c -> R a c) ->
  (forall folder c, R c (snd (dd_item folder c))) ->
  (forall folder c k v, R c (dd_store folder k v c)) ->
  forall (cs : list call) (s : state), R (cache_of s) (cache_of (run cs s)).
Proof.
  intros Rr Rt Ht Hs cs. unfold run.
  induction cs as [|cl cs IH]; intro s; simpl; [apply Rr|].
  eapply Rt; [|apply IH]. apply exec_moves; auto.
Qed.

(** every state of a session has a well-formed cache *)
Lemma cache_ok_run (cs : list call) (s : state) :
  cache_ok (cache_of s) -> cache_ok (cache_of (run cs s)).
Proof.
  apply (run_moves (fun c c' => cache_ok c -> cache_ok c')); auto.
  - intros folder c. apply cache_ok_touch.
  - intros folder c k v. apply cache_ok_store.
Qed.

Lemma cache_ok_fresh (location key : string) (w : World) :
  cache_ok (cache_of (fresh location key w)).
Proof. split; [constructor | intros f inner []]. Qed.

(** C7.  In every state a session can reach, and for a folder whose
    forward map is injective, the reversed view (computed from the forward
    map on each use, the client stores nothing else) maps [(f, a)] to [n]
    exactly when the forward map maps [(f, n)] to [a]. *)
Theorem reverse_view_is_inverse :
  forall (cs : list call) (location key : string) (w : World)
         (folder a : string) (n : pykey),
    let c := cache_of (run cs (fresh location key w)) in
    injective_in c folder ->
    (lookup (_address_to_id_mapping c) folder a = Some n <->
     lookup c folder n = Some a).
Proof.
  intros cs location key w folder a n c Inj.
  assert (Hok : cache_ok c) by apply cache_ok_run, cache_ok_fresh.
  split.
  - now apply reverse_entry_forward.
  - now apply forward_entry_reverse.
Qed.

Lemma cached_id_lookup (c : cache) (address folder : string) (k : pykey) :
  cached_id c address folder = Some k ->
  lookup (_address_to_id_mapping c) folder address = Some k.
Proof.
  unfold cached_id, lookup.
  destruct (get folder (_address_to_id_mapping c)) as [fm|]; [|discriminate].
  now destruct (nonempty fm).
Qed.

Lemma lookup_cached_id (c : cache) (address folder : string) (k : pykey) :
  lookup (_address_to_id_mapping c) folder address = Some k ->
  cached_id c address folder = Some k.
Proof.
  unfold cached_id, lookup.
  destruct (get folder (_address_to_id_mapping c)) as [fm|]; [|discriminate].
  intro G. now rewrite (get_Some_nonempty _ _ G).
Qed.

Lemma lookup_cached_address (c : cache) (id : Z) (folder a : string) :
  lookup c folder (KInt id) = Some a -> a <> ""%string ->
  cached_address c id folder = Some a.
Proof.
  unfold cached_address, lookup.
  destruct (get folder c) as [inner|]; [|discriminate].
  intros G N. rewrite (get_Some_nonempty _ _ G), G.
  apply String.eqb_neq in N. now rewrite N.
Qed.

(** the cache-miss branch of [decentlab_id_from_address] *)
Lemma forward_miss (fuel : nat) (address folder : string) (s s1 : state)
    (k : pykey) :
  bind (get_device fuel address) (fun resp =>
  bind (lift (py_item resp "body")) (fun device =>
  bind (lift (and_then (seriennummer device) py_int)) (fun n =>
  store folder (VInt n) address))) s = (Ret k, s1) ->
  exists n, k = KInt n /\
    cache_of s1 = dd_store folder (KInt n) address (cache_of s).
Proof.
  unfold bind.
  pose proof (make_req_self fuel (device_route address) [] None s) as F.
  fold (get_device fuel address) in F.
  destruct (get_device fuel address s) as [[resp|e|] s'] eqn:G;
    try discriminate.
  simpl in F. unfold lift.
  destruct (py_item resp "body") as [device| |]; try discriminate.
  destruct (and_then (seriennummer device) py_int) as [n| |]; try discriminate.
  rewrite store_eq. simpl. intro E. inversion E. subst.
  exists n. simpl. now rewrite F.
Qed.

Lemma forward_lookup_caches (fuel : nat) (address folder : string)
    (s s1 : state) (k : pykey) :
  cache_ok (cache_of s) ->
  decentlab_id_from_address fuel address folder s = (Ret k, s1) ->
  lookup (cache_of s1) folder k = Some address.
Proof.
  intros Hok. unfold decentlab_id_from_address.
  unfold bind at 1. unfold get_self at 1.
  destruct (cached_id (cache_of s) address folder) as [[|n|t]|] eqn:C.
  - intro E. apply forward_miss in E. destruct E as (n & -> & ->).
    apply lookup_store_same.
  - intro E. inversion E. subst.
    now apply reverse_entry_forward, cached_id_lookup.
  - intro E. inversion E. subst.
    now apply reverse_entry_forward, cached_id_lookup.
  - intro E. apply forward_miss in E. destruct E as (n & -> & ->).
    apply lookup_store_same.
Qed.

(** a cached id with a non-empty address is answered from the cache *)
Lemma reverse_hit (fuel : nat) (id : Z) (folder a : string) (s : state) :
  lookup (cache_of s) folder (KInt id) = Some a -> a <> ""%string ->
  address_from_decentlab_id fuel id folder s = (Ret a, s).
Proof.
  intros G N. unfold address_from_decentlab_id, bind, get_self.
  now rewrite (lookup_cached_address _ _ _ G N).
Qed.

(** X20.  In every state a session can reach:
    - when [decentlab_id_from_address(addr, f)] returns the integer [x]
      for a non-empty [addr], the call [address_from_decentlab_id(x, f)]
      that follows returns [addr] and leaves the whole state, request log
      included, as it was;
    - a pair cached with a non-empty address is answered by the reverse
      lookup without a request, and by the forward lookup too when no
      other id of the folder is cached with that address. *)
Theorem cached_lookups_send_nothing :
  forall (cs : list call) (location key : string) (w : World) (folder : string),
    let s := run cs (fresh location key w) in
    (forall fuel addr x s1,
       addr <> ""%string ->
       decentlab_id_from_address fuel addr folder s = (Ret (KInt x), s1) ->
       forall fuel', address_from_decentlab_id fuel' x folder s1 = (Ret addr, s1))
    /\
    (forall id addr,
       lookup (cache_of s) folder (KInt id) = Some addr ->
       addr <> ""%string ->
       forall fuel,
         address_from_decentlab_id fuel id folder s = (Ret addr, s) /\
         (injective_in (cache_of s) folder ->
          decentlab_id_from_address fuel addr folder s = (Ret (KInt id), s))).
Proof.
  intros cs location key w folder s.
  assert (Hok : cache_ok (cache_of s)) by apply cache_ok_run, cache_ok_fresh.
  split.
  - intros fuel addr x s1 N E fuel'.
    apply reverse_hit; auto. eapply forward_lookup_caches; eauto.
  - intros id addr G N fuel. split; [now apply reverse_hit|].
    intro Inj. unfold decentlab_id_from_address, bind, get_self.
    rewrite (lookup_cached_id _ _ _
               (@forward_entry_reverse _ folder addr (KInt id) Hok Inj G)).
    reflexivity.
Qed.


End Sessions.

(** ** Printing *)

Section Printing.

Context {RT : Runtime}.

Lemma prefix_foreign (c : ascii) (y : string) :
  forall x pat : string,
    occurs c pat = false ->
    prefix pat (x ++ String c y)%string = prefix pat x.
Proof.
  induction x as [|a x IH]; intros [|p pat] O; simpl; try reflexivity.
  - simpl in O. apply orb_false_elim in O. destruct O as [O _].
    destruct (Ascii.ascii_dec p c) as [->|]; [|reflexivity].
    rewrite Ascii.eqb_refl in O. discriminate.
  - simpl in O. apply orb_false_elim in O. destruct O as [_ O].
    destruct (Ascii.ascii_dec p a); auto.
Qed.

(** a pattern cannot straddle a character it does not contain *)
Lemma contains_split (c : ascii) (pat y : string) :
  occurs c pat = false -> pat <> ""%string ->
  forall x : string,
    contains pat (x ++ String c y)%string =
    (contains pat x || contains pat y)%bool.
Proof.
  intros O NE. induction x as [|a x IH].
  - destruct pat as [|p pat]; [contradiction|].
    simpl in O. apply orb_false_elim in O. destruct O as [O _].
    simpl. destruct (Ascii.ascii_dec p c) as [->|]; [|reflexivity].
    rewrite Ascii.eqb_refl in O. discriminate.
  - change (String a x ++ String c y)%string
      with (String a (x ++ String c y)%string).
    change (contains pat (String a (x ++ String c y)%string))
      with (prefix pat (String a x ++ String c y)%string
            || contains pat (x ++ String c y)%string)%bool.
    rewrite prefix_foreign by assumption. rewrite IH.
    simpl contains. now rewrite orb_assoc.
Qed.

Lemma stars_starred (s : string) :
  str_mul (Z.of_nat (String.length s)) "*" = starred s.
Proof.
  unfold str_mul. rewrite Nat2Z.id.
  induction s as [|c s IH]; [reflexivity|].
  simpl. destruct s as [|c' s]; [reflexivity|].
  simpl in *. now rewrite IH.
Qed.

Lemma substring_skip (pre suf : string) (m : nat) :
  substring (String.length pre) m (pre ++ suf)%string = substring 0 m suf.
Proof. induction pre as [|c pre IH]; simpl; auto. Qed.

Lemma substring_whole (s : string) : substring 0 (String.length s) s = s.
Proof. induction s as [|c s IH]; simpl; [reflexivity | now rewrite IH]. Qed.

Lemma redacted_split (pre suf : string) :
  String.length suf = 3%nat ->
  redacted (pre ++ suf)%string = (starred pre ++ suf)%string.
Proof.
  intro L. unfold redacted, last3. rewrite length_append, L.
  replace (Z.of_nat (String.length pre + 3) - 3)
    with (Z.of_nat (String.length pre)) by lia.
  rewrite stars_starred. f_equal.
  replace (String.length pre + 3 - 3)%nat with (String.length pre) by lia.
  rewrite substring_skip, <- L. apply substring_whole.
Qed.

(** C8, as the code has it.  The key is printed as its last three
    characters behind one star for each earlier character.  For the key
    ["abcdef123"] the printed client contains ["abcdef"] only if the
    printed location does. *)
Theorem repr_redacts_key :
  (forall location pre suf : string,
     String.length suf = 3%nat ->
     __repr__ (__init__ location (pre ++ suf)%string) =
       ("ElementApi(api_location=" ++ repr_str (strip "/" location) ++
        ", api_key=" ++ starred pre ++ suf ++ ")")%string)
  /\
  (forall location : string,
     contains "abcdef" (repr_str (strip "/" location)) = false ->
     contains "abcdef" (__repr__ (__init__ location "abcdef123")) = false).
Proof.
  split.
  - intros location pre suf L. unfold __repr__, __init__. simpl api_key.
    simpl api_location. rewrite (@redacted_split pre suf L).
    rewrite append_assoc. reflexivity.
  - intros location H. unfold __repr__, __init__. simpl api_key.
    simpl api_location.
    change ("ElementApi" ++ "(" ++ "api_location=" ++
            repr_str (strip "/" location) ++ ", " ++ "api_key=" ++
            redacted "abcdef123" ++ ")")%string
      with ("ElementApi(api_location" ++
            String "=" (repr_str (strip "/" location) ++
                        String "," " api_key=******123)"))%string.
    rewrite contains_split by (reflexivity || discriminate).
    rewrite contains_split by (reflexivity || discriminate).
    rewrite H. reflexivity.
Qed.

End Printing.

(** * Worked examples on the small server *)

Module Examples.

Import Demo.

Example repr_example :
  @__repr__ rt (self s0) =
  "ElementApi(api_location='https://x/api/v1', api_key=******123)"%string.
Proof. reflexivity. Qed.

Example resolve_22 :
  fst (@address_from_decentlab_id rt 0 22 "f" s0) = Ret "D2"%string.
Proof. reflexivity. Qed.

Example three_pages_merged :
  fst (@_make_req scripted 2 "tags/f/devices" [] None sP) =
  Ret (VDict [("body", VList [VInt 1; VInt 2; VInt 3; VInt 4; VInt 5]);
              ("retrieve_after_id", VStr "t1")]).
Proof. reflexivity. Qed.

Example three_pages_need_two_units_of_fuel :
  fst (@_make_req scripted 1 "tags/f/devices" [] None sP) = OutOfFuel.
Proof. reflexivity. Qed.

(** C1 on the small server: resolving 22 in folder [f]. *)
Lemma probe_short_circuit_witness :
  exists s' : @state rt,
    @address_from_decentlab_id rt 0 22 "f" s0 = (Ret "D2"%string, s') /\
    sent s' =
      sent (snd (@get_devices rt 0 "f" s0)) ++
      [@probe_url rt (self s0) "D1"; @probe_url rt (self s0) "D2"] /\
    ~ In (@probe_url rt (self s0) "D3")
        [@probe_url rt (self s0) "D1"; @probe_url rt (self s0) "D2"] /\
    _id_to_address_mapping (self s') =
      [("f"%string, [(KInt 11, "D1"%string); (KInt 22, "D2"%string)])].
Proof.
  apply (@probe_short_circuit rt 0 "f" s0 (snd (@get_devices rt 0 "f" s0))
           (envelope (VList [device "D1"; device "D2"; device "D3"]))
           (device "D1") (device "D2") (device "D3") "D1" "D2" "D3"
           (readings 11) (readings 22) (readings 33));
    try reflexivity; intros []; reflexivity.
Defined.

(** C2 on the three-page source, whose pages carry the records [1; 2],
    [3] and [4; 5]: without a cap the body is [1; 2; 3; 4; 5] after three
    requests, with [max_pages=2] it is [1; 2; 3] after two; the token of
    the first page stays in the envelope. *)
Lemma make_req_merges_pages_witness :
  (exists (s' : @state scripted) (kvs : list (string * value)),
     @_make_req scripted 2 "tags/f/devices" [] None sP = (Ret (VDict kvs), s') /\
     get "body" kvs = Some (VList [VInt 1; VInt 2; VInt 3; VInt 4; VInt 5]) /\
     keys kvs = ["body"%string; "retrieve_after_id"%string] /\
     get "retrieve_after_id" kvs = Some (VStr "t1") /\
     length (sent s') = 3%nat)
  /\
  (exists (s' : @state scripted) (kvs : list (string * value)),
     @_make_req scripted 2 "tags/f/devices" [] (Some 2) sP = (Ret (VDict kvs), s') /\
     get "body" kvs = Some (VList [VInt 1; VInt 2; VInt 3]) /\
     keys kvs = ["body"%string; "retrieve_after_id"%string] /\
     get "retrieve_after_id" kvs = Some (VStr "t1") /\
     length (sent s') = 2%nat).
Proof.
  assert (E : @emits scripted (net sP)
                (@request_url scripted (self sP) "tags/f/devices" [])
                page1 [page2; page3]).
  { repeat split; reflexivity. }
  assert (HB : Forall2 (fun page l => get "body" page = Some (VList l))
                 [page1; page2; page3]
                 [[VInt 1; VInt 2]; [VInt 3]; [VInt 4; VInt 5]]).
  { repeat constructor. }
  destruct (@make_req_merges_pages scripted 2 "tags/f/devices" [] sP
              page1 [page2; page3]
              [[VInt 1; VInt 2]; [VInt 3]; [VInt 4; VInt 5]] E HB) as [A B].
  split.
  - destruct A as (s' & kvs & Q & G & K & O & Hs & _); [simpl; lia|].
    exists s', kvs. split; [exact Q|]. split; [exact G|]. split; [exact K|].
    split; [rewrite O; [reflexivity | discriminate]|].
    rewrite Hs. reflexivity.
  - destruct (B 2) as (s' & kvs & Q & G & K & O & Hs & _);
      [simpl; lia | simpl; lia |].
    exists s', kvs. split; [exact Q|]. split; [exact G|]. split; [exact K|].
    split; [rewrite O; [reflexivity | discriminate]|].
    rewrite Hs. reflexivity.
Defined.

(** C9 on the three-page source: [max_pages=0] fetches all three. *)
Lemma max_pages_zero_is_unbounded_witness :
  exists s' : @state scripted,
    @_make_req scripted 2 "tags/f/devices" [] (Some 0) sP =
      (Ret (with_body (VDict page1)
              [VInt 1; VInt 2; VInt 3; VInt 4; VInt 5]), s') /\
    length (sent s') = 3%nat.
Proof.
  destruct (proj2 (@max_pages_zero_is_unbounded scripted 2 "tags/f/devices" [] sP)
              page1 [page2; page3]) as (s' & Q & Hs).
  - repeat split; reflexivity.
  - repeat constructor; eexists; reflexivity.
  - simpl. lia.
  - exists s'. split; [exact Q|]. rewrite Hs. reflexivity.
Defined.

(** C5 as stated fails: with [max_pages=1] a single-record answer that
    carries a token is returned, no [TypeError] is raised. *)
Lemma scalar_body_with_cap_is_returned :
  get "body" scalar_page = Some (VDict [("name", VStr "S")]) /\
  truthy (token scalar_page) = true /\
  fst (@_make_req rt 5 "devices/scalar" [] (Some 1) s0) = Ret (VDict scalar_page).
Proof. repeat split; reflexivity. Qed.

(** C5 on the small server: the scalar page without a cap and with
    [max_pages=1]. *)
Lemma scalar_body_pagination_witness :
  fst (@_make_req rt 1 "devices/scalar" [] None s0) =
    Raise (Raised TypeError pagination_msg)
  /\ fst (@_make_req rt 0 "devices/scalar" [] (Some 1) s0) =
    Ret (VDict scalar_page).
Proof.
  destruct (@scalar_body_pagination rt 0 "devices/scalar" [] None s0
              scalar_page (VDict [("name", VStr "S")]) eq_refl eq_refl)
    as (A & _ & _); [intros l; discriminate|].
  destruct (@scalar_body_pagination rt 0 "devices/scalar" [] (Some 1) s0
              scalar_page (VDict [("name", VStr "S")]) eq_refl eq_refl)
    as (_ & B & _); [intros l; discriminate|].
  split.
  - rewrite (A eq_refl eq_refl
               [("body", VDict [("name", VStr "S")]); ("ok", VBool true);
                ("status", VInt 200)] eq_refl).
    reflexivity.
  - rewrite (B eq_refl eq_refl). reflexivity.
Defined.

(** C4 on the small server: no device of folder [f] has the id 44; the
    message reads [unable to find address for station: 44], and the three
    devices, whose ids differ, are probed once each. *)
Lemma unresolvable_id_raises_after_probing_witness :
  exists (s' : @state rt) (probed : list string),
    @address_from_decentlab_id rt 0 44 "f" s0 =
      (Raise (Raised ValueError "unable to find address for station: 44"), s') /\
    sent s' =
      sent (snd (@get_devices rt 0 "f" s0)) ++
      map (@probe_url rt (self s0)) probed /\
    incl probed ["D1"; "D2"; "D3"]%string /\
    (forall a, In a ["D1"; "D2"; "D3"]%string -> In a probed) /\
    NoDup probed.
Proof.
  destruct (@unresolvable_id_raises_after_probing rt 0 44 "f" s0
              (snd (@get_devices rt 0 "f" s0))
              (envelope (VList [device "D1"; device "D2"; device "D3"]))
              (VList [device "D1"; device "D2"; device "D3"])
              [device "D1"; device "D2"; device "D3"]
              ["D1"; "D2"; "D3"]%string
              (fun a => if String.eqb a "D1" then KInt 11
                        else if String.eqb a "D2" then KInt 22 else KInt 33)
              ltac:(vm_compute; reflexivity) ltac:(vm_compute; reflexivity)
              ltac:(vm_compute; reflexivity) ltac:(vm_compute; reflexivity))
    as (s' & probed & Q & _ & Hs & Hi & Hc & Hn).
  - repeat constructor.
  - intros a w [<-|[<-|[<-|[]]]].
    + exists (readings 11), (VInt 11).
      repeat split; try (vm_compute; reflexivity). discriminate.
    + exists (readings 22), (VInt 22).
      repeat split; try (vm_compute; reflexivity). discriminate.
    + exists (readings 33), (VInt 33).
      repeat split; try (vm_compute; reflexivity). discriminate.
  - exists s', probed. split; [exact Q|]. split; [exact Hs|].
    split; [exact Hi|]. split.
    + intros a Ha. apply Hc; [exact Ha|].
      destruct Ha as [<-|[<-|[<-|[]]]]; reflexivity.
    + apply Hn. left. repeat constructor; simpl; intuition discriminate.
Defined.

(** C4 as stated fails: the listing of folder [dup] names [D1; D2; D1; D2]
    and both devices report the id 11.  No device has the id 44, nothing
    is cached, and yet the call probes each device twice before it raises:
    the entry [11 -> D1] is overwritten by [11 -> D2] and back, so neither
    address is among the cached values when its turn comes again. *)
Lemma duplicate_listing_is_probed_twice :
  _id_to_address_mapping (self Demo3.s0) = [] /\
  fst (@get_devices Demo3.rt 0 "dup" Demo3.s0) =
    Ret (envelope (VList [device "D1"; device "D2"; device "D1"; device "D2"])) /\
  fst (@get_readings Demo3.rt 0 (VStr "D1") "measured_at" "asc" None None 1
         (Some 1) Demo3.s0) = Ret (readings 11) /\
  fst (@get_readings Demo3.rt 0 (VStr "D2") "measured_at" "asc" None None 1
         (Some 1) Demo3.s0) = Ret (readings 11) /\
  fst (@address_from_decentlab_id Demo3.rt 0 44 "dup" Demo3.s0) =
    Raise (Raised ValueError "unable to find address for station: 44") /\
  sent (snd (@address_from_decentlab_id Demo3.rt 0 44 "dup" Demo3.s0)) =
    ["https://x/api/v1/tags/dup/devices?&auth=abcdef123";
     "https://x/api/v1/devices/by-name/D1/readings?&auth=abcdef123&sort=measured_at&sort_direction=asc&limit=1";
     "https://x/api/v1/devices/by-name/D2/readings?&auth=abcdef123&sort=measured_at&sort_direction=asc&limit=1";
     "https://x/api/v1/devices/by-name/D1/readings?&auth=abcdef123&sort=measured_at&sort_direction=asc&limit=1";
     "https://x/api/v1/devices/by-name/D2/readings?&auth=abcdef123&sort=measured_at&sort_direction=asc&limit=1"]%string.
Proof. repeat split; vm_compute; reflexivity. Qed.

(** C10 on the small server: in folder [g] the device [E0] has no
    reading and comes before [D2], whose id is 22. *)
Lemma probe_without_readings_raises_IndexError_witness :
  fst (@address_from_decentlab_id rt 0 22 "g" s0) = Raise (Builtin IndexError)
  /\ ~ exn_is ValueError (Builtin IndexError).
Proof.
  destruct (@probe_without_readings_raises_IndexError rt 0 22 "g" s0
              (snd (@get_devices rt 0 "g" s0))
              (snd (@probe_devices rt 0 22 "g" [device "D1"]
                      (snd (@get_devices rt 0 "g" s0))))
              (envelope (VList [device "D1"; device "E0"; device "D2"]))
              (VList [device "D1"; device "E0"; device "D2"])
              [device "D1"] (device "E0") [device "D2"] "E0"
              [("body", VList []); ("ok", VBool true); ("status", VInt 200)])
    as [Q N]; try (vm_compute; reflexivity).
  split; [|exact N]. rewrite Q. reflexivity.
Defined.

(** the cache left by resolving 22 in folder [f] is injective *)
Lemma demo_cache_injective :
  injective_in [("f"%string, [(KInt 11, "D1"%string); (KInt 22, "D2"%string)])]
    "f".
Proof.
  intros k1 k2 a. unfold lookup. simpl.
  destruct (pykey_eqb k1 (KInt 11)) eqn:E1; destruct (pykey_eqb k2 (KInt 11)) eqn:E2;
    destruct (pykey_eqb k1 (KInt 22)) eqn:E3;
    destruct (pykey_eqb k2 (KInt 22)) eqn:E4;
    try apply pykey_eqb_eq in E1; try apply pykey_eqb_eq in E2;
    try apply pykey_eqb_eq in E3; try apply pykey_eqb_eq in E4;
    intros H1 H2; congruence.
Defined.

(** C7 after resolving 22 in folder [f]. *)
Lemma reverse_view_is_inverse_witness :
  lookup (_address_to_id_mapping
            (_id_to_address_mapping (self (@run rt [Reverse 0 22 "f"] s0))))
    "f" "D2"%string = Some (KInt 22)
  <->
  lookup (_id_to_address_mapping (self (@run rt [Reverse 0 22 "f"] s0)))
    "f" (KInt 22) = Some "D2"%string.
Proof.
  apply (@reverse_view_is_inverse rt [Reverse 0 22 "f"]
           "https://x/api/v1/" "abcdef123" tt "f" "D2" (KInt 22)).
  exact demo_cache_injective.
Defined.

(** C3 at the empty address.  The forward lookup of [""] in folder [f]
    returns 5 after one request and caches [5 -> ""].  The reverse lookup
    of 5 that follows does not return [""]: the test
    [if folder_mapping and folder_mapping.get(decentlab_id)] takes the
    cached empty address for a miss, so the call lists the folder, probes
    its three devices and raises [ValueError], four requests later.  The
    comment above that test reads "if we already have the mapping, simply
    return it without making any requests", and the forward lookup tests
    its cached value with [is None]. *)
Lemma empty_address_is_looked_up_again :
  fst (@decentlab_id_from_address rt 0 "" "f" s0) = Ret (KInt 5) /\
  sent (snd (@decentlab_id_from_address rt 0 "" "f" s0)) =
    ["https://x/api/v1/devices/?&auth=abcdef123"%string] /\
  lookup (_id_to_address_mapping
            (self (snd (@decentlab_id_from_address rt 0 "" "f" s0))))
    "f" (KInt 5) = Some ""%string /\
  fst (@address_from_decentlab_id rt 0 5 "f"
         (snd (@decentlab_id_from_address rt 0 "" "f" s0))) =
    Raise (Raised ValueError "unable to find address for station: 5") /\
  sent (snd (@address_from_decentlab_id rt 0 5 "f"
               (snd (@decentlab_id_from_address rt 0 "" "f" s0)))) =
    ["https://x/api/v1/devices/?&auth=abcdef123";
     "https://x/api/v1/tags/f/devices?&auth=abcdef123";
     "https://x/api/v1/devices/by-name/D1/readings?&auth=abcdef123&sort=measured_at&sort_direction=asc&limit=1";
     "https://x/api/v1/devices/by-name/D2/readings?&auth=abcdef123&sort=measured_at&sort_direction=asc&limit=1";
     "https://x/api/v1/devices/by-name/D3/readings?&auth=abcdef123&sort=measured_at&sort_direction=asc&limit=1"]%string.
Proof. repeat split; vm_compute; reflexivity. Qed.

(** X20 on the small server: a forward lookup followed by the reverse
    one, and a forward lookup of a pair cached by probing. *)
Lemma cached_lookups_send_nothing_witness :
  let s1 := snd (@decentlab_id_from_address rt 0 "DEC1" "f" s0) in
  @address_from_decentlab_id rt 7 11 "f" s1 = (Ret "DEC1"%string, s1) /\
  @decentlab_id_from_address rt 7 "D2" "f" (@run rt [Reverse 0 22 "f"] s0) =
    (Ret (KInt 22), @run rt [Reverse 0 22 "f"] s0).
Proof.
  intro s1. split.
  - apply (proj1 (@cached_lookups_send_nothing rt []
                    "https://x/api/v1/" "abcdef123" tt "f")
             0%nat "DEC1"%string 11 s1);
      [discriminate | vm_compute; reflexivity].
  - apply (proj2 (@cached_lookups_send_nothing rt [Reverse 0 22 "f"]
                    "https://x/api/v1/" "abcdef123" tt "f") 22 "D2"%string);
      [vm_compute; reflexivity | discriminate | exact demo_cache_injective].
Defined.


(** C8 as stated fails: the location is printed in full, so a location
    that contains ["abcdef"] shows it. *)
Lemma repr_shows_the_location :
  contains "abcdef"
    (@__repr__ rt (__init__ "https://abcdef.example/api/v1" "abcdef123"))
  = true.
Proof. vm_compute. reflexivity. Qed.

(** C8 for the key ["abcdef123"] and a location without ["abcdef"]. *)
Lemma repr_redacts_key_witness :
  @__repr__ rt (__init__ "https://x/api/v1/" "abcdef123") =
    "ElementApi(api_location='https://x/api/v1', api_key=******123)"%string
  /\
  contains "abcdef" (@__repr__ rt (__init__ "https://x/api/v1/" "abcdef123"))
  = false.
Proof.
  split.
  - apply (proj1 (@repr_redacts_key rt) "https://x/api/v1/" "abcdef" "123").
    reflexivity.
  - apply (proj2 (@repr_redacts_key rt) "https://x/api/v1/").
    vm_compute. reflexivity.
Defined.

End Examples.

(** * Further properties of the paginator *)

Section PaginatorMore.

Context {RT : Runtime}.

Lemma bind_Ret {A B} (m : M A) (f : A -> M B) (s s' : state) (b : B) :
  bind m f s = (Ret b, s') ->
  exists a s1, m s = (Ret a, s1) /\ f a s1 = (Ret b, s').
Proof.
  unfold bind. destruct (m s) as [[a|e|] s1]; try discriminate. eauto.
Qed.

Lemma lift_Ret {A} (o : outcome A) (s s' : state) (a : A) :
  lift o s = (Ret a, s') -> o = Ret a /\ s' = s.
Proof. unfold lift. intro E. inversion E. auto. Qed.

Lemma bind_lift {A B} (o : outcome A) (f : A -> M B) (s : state) :
  bind (lift o) f s =
  match o with
  | Ret a => f a s
  | Raise e => (Raise e, s)
  | OutOfFuel => (OutOfFuel, s)
  end.
Proof. unfold bind, lift. now destruct o. Qed.

(** the loop under a cap [m <> 0]: it ends within [m - i] turns *)
Lemma paginate_capped (fuel : nat) :
  forall req0 m i out tok s,
    m <> 0 ->
    (Z.to_nat (m - i) <= fuel)%nat ->
    fst (paginate fuel req0 (Some m) i out tok s) <> OutOfFuel /\
    (length (sent (snd (paginate fuel req0 (Some m) i out tok s)))
     <= length (sent s) + Z.to_nat (m - i))%nat.
Proof.
  induction fuel as [|fuel IH]; intros req0 m i out tok s Hm Hf;
    rewrite paginate_eq; destruct (truthy tok);
    try (simpl; split; [discriminate | lia]);
    unfold cap_reached;
    replace (m =? 0) with false by (symmetry; apply Z.eqb_neq; lia);
    simpl negb; rewrite andb_true_l;
    destruct (m <=? i) eqn:L;
    try (simpl; split; [discriminate | lia]).
  - apply Z.leb_gt in L. lia.
  - apply Z.leb_gt in L.
    set (Q := fun r : outcome value * state =>
                fst r <> OutOfFuel /\
                (length (sent (snd r))
                 <= length (sent s) + Z.to_nat (m - i))%nat).
    match goal with |- _ /\ (length (sent (snd ?r)) <= _)%nat =>
      change (Q r) end.
    unfold bind at 1. rewrite fetch_eq.
    set (s1 := {| self := self s;
                  net := snd (urlopen (net s) (next_url req0 tok));
                  sent := sent s ++ [next_url req0 tok] |}).
    assert (L1 : length (sent s1) = S (length (sent s))).
    { subst s1. simpl. rewrite length_app. simpl. lia. }
    assert (Early : forall e : exn, Q (Raise e, s1)).
    { intro e. split; [discriminate|].
      change (snd (@Raise value e, s1)) with s1. rewrite L1. lia. }
    destruct (fst (urlopen (net s) (next_url req0 tok))) as [e|data];
      [apply Early|].
    rewrite bind_lift.
    destruct (py_get data "retrieve_after_id") as [tok'|e|] eqn:G;
      [| apply Early | destruct data; discriminate].
    rewrite bind_lift.
    destruct (py_item out "body") as [body|e|] eqn:B;
      [| apply Early
       | destruct out as [| | | | |kvs]; try discriminate;
         simpl in B; destruct (get "body" kvs); discriminate].
    destruct body; try apply Early.
    rewrite bind_lift.
    destruct (py_item data "body") as [more|e|] eqn:B2;
      [| apply Early
       | destruct data as [| | | | |kvs]; try discriminate;
         simpl in B2; destruct (get "body" kvs); discriminate].
    rewrite bind_lift.
    destruct (py_iter more) as [items|e|] eqn:I;
      [| apply Early | destruct more; discriminate].
    destruct (IH req0 m (i + 1) (with_body out (l ++ items)) tok' s1 Hm)
      as [H1 H2]; [lia|].
    split; [exact H1|]. rewrite L1 in H2. lia.
Qed.

(** X1.  A page cap other than 0 bounds the call whatever the server
    answers: with [max_pages = m] the call ends (fuel [m - 1] is enough,
    none when [m <= 1]) and sends at most [max 1 m] requests. *)
Theorem make_req_cap_bounds_requests :
  forall fuel route params m s,
    m <> 0 ->
    (Z.to_nat (m - 1) <= fuel)%nat ->
    fst (_make_req fuel route params (Some m) s) <> OutOfFuel /\
    (length (sent (snd (_make_req fuel route params (Some m) s)))
     <= length (sent s) + Z.to_nat (Z.max 1 m))%nat.
Proof.
  intros fuel route params m s Hm Hf.
  set (Q := fun r : outcome value * state =>
              fst r <> OutOfFuel /\
              (length (sent (snd r))
               <= length (sent s) + Z.to_nat (Z.max 1 m))%nat).
  change (Q (_make_req fuel route params (Some m) s)).
  unfold _make_req. unfold bind at 1. unfold get_self.
  unfold bind at 1. rewrite fetch_eq.
  set (req0 := request_url (self s) route params).
  set (s1 := {| self := self s; net := snd (urlopen (net s) req0);
                sent := sent s ++ [req0] |}).
  assert (L1 : length (sent s1) = S (length (sent s))).
  { subst s1. simpl. rewrite length_app. simpl. lia. }
  assert (Early : forall e : exn, Q (Raise e, s1)).
  { intro e. split; [discriminate|].
    change (snd (@Raise value e, s1)) with s1. rewrite L1. lia. }
  destruct (fst (urlopen (net s) req0)) as [e|out]; [apply Early|].
  rewrite bind_lift.
  destruct (py_get out "retrieve_after_id") as [tok|e|] eqn:G;
    [| apply Early | destruct out; discriminate].
  destruct (@paginate_capped fuel req0 m 1 out tok s1 Hm Hf) as [H1 H2].
  split; [exact H1|]. rewrite L1 in H2. lia.
Qed.

(** the loop only appends continuation requests to the log *)
Lemma paginate_log (fuel : nat) :
  forall req0 mp i out tok s,
    exists conts,
      sent (snd (paginate fuel req0 mp i out tok s)) = sent s ++ conts /\
      Forall (fun u => exists t, u = next_url req0 t) conts.
Proof.
  induction fuel as [|fuel IH]; intros req0 mp i out tok s;
    rewrite paginate_eq; destruct (truthy tok);
    try (exists []; simpl; rewrite app_nil_r; split; [reflexivity|constructor]);
    destruct (cap_reached mp i);
    try (exists []; simpl; rewrite app_nil_r; split; [reflexivity|constructor]).
  set (Q := fun r : outcome value * state =>
              exists conts,
                sent (snd r) = sent s ++ conts /\
                Forall (fun u => exists t, u = next_url req0 t) conts).
  match goal with |- exists conts, sent (snd ?r) = _ /\ _ => change (Q r) end.
  unfold bind at 1. rewrite fetch_eq.
  set (s1 := {| self := self s;
                net := snd (urlopen (net s) (next_url req0 tok));
                sent := sent s ++ [next_url req0 tok] |}).
  assert (Early : forall o : outcome value, Q (o, s1)).
  { intro o. exists [next_url req0 tok]. split; [reflexivity|].
    constructor; [eauto | constructor]. }
  destruct (fst (urlopen (net s) (next_url req0 tok))) as [e|data];
    [apply Early|].
  rewrite bind_lift.
  destruct (py_get data "retrieve_after_id") as [tok'|e|]; try apply Early.
  rewrite bind_lift.
  destruct (py_item out "body") as [body|e|]; try apply Early.
  destruct body; try apply Early.
  rewrite bind_lift.
  destruct (py_item data "body") as [more|e|]; try apply Early.
  rewrite bind_lift.
  destruct (py_iter more) as [items|e|]; try apply Early.
  destruct (IH req0 mp (i + 1) (with_body out (l ++ items)) tok' s1)
    as (conts & E & F).
  exists (next_url req0 tok :: conts). split.
  - rewrite E. subst s1. simpl. now rewrite <- app_assoc.
  - constructor; eauto.
Qed.

(** X2.  Whatever the outcome, a call of [_make_req] leaves the client
    object as it was and only appends to the request log: first the
    request built from route and parameters, then requests that are this
    same url followed by [&retrieve_after=] and a token. *)
Theorem make_req_appends_to_log :
  forall fuel route params mp s,
    let req0 := request_url (self s) route params in
    let s' := snd (_make_req fuel route params mp s) in
    self s' = self s /\
    exists conts,
      sent s' = sent s ++ req0 :: conts /\
      Forall (fun u => exists t, u = next_url req0 t) conts.
Proof.
  intros fuel route params mp s req0 s'. split; [apply make_req_self|].
  subst s'.
  set (Q := fun r : outcome value * state =>
              exists conts,
                sent (snd r) = sent s ++ req0 :: conts /\
                Forall (fun u => exists t, u = next_url req0 t) conts).
  change (Q (_make_req fuel route params mp s)).
  unfold _make_req. unfold bind at 1. unfold get_self.
  unfold bind at 1. rewrite fetch_eq. fold req0.
  set (s1 := {| self := self s; net := snd (urlopen (net s) req0);
                sent := sent s ++ [req0] |}).
  assert (Early : forall o : outcome value, Q (o, s1)).
  { intro o. exists []. split; [reflexivity | constructor]. }
  destruct (fst (urlopen (net s) req0)) as [e|out]; [apply Early|].
  rewrite bind_lift.
  destruct (py_get out "retrieve_after_id") as [tok|e|]; try apply Early.
  destruct (@paginate_log fuel req0 mp 1 out tok s1) as (conts & E & F).
  exists conts. rewrite E. subst s1. simpl.
  rewrite <- app_assoc. auto.
Qed.

End PaginatorMore.

Section PaginatorShape.

Context {RT : Runtime}.

Lemma paginate_shape (fuel : nat) :
  forall req0 mp i out tok s v s',
    paginate fuel req0 mp i (VDict out) tok s = (Ret v, s') ->
    exists kvs,
      v = VDict kvs /\
      keys kvs = keys out /\
      (forall k, k <> "body"%string -> get k kvs = get k out) /\
      (forall l, get "body" out = Some (VList l) ->
         exists more, get "body" kvs = Some (VList (l ++ more))) /\
      ((forall l, get "body" out <> Some (VList l)) -> kvs = out).
Proof.
  induction fuel as [|fuel IH]; intros req0 mp i out tok s v s' E;
    rewrite paginate_eq in E;
    assert (Same : forall s0, @ret _ value (VDict out) s0 = (Ret v, s') ->
              exists kvs,
                v = VDict kvs /\ keys kvs = keys out /\
                (forall k, k <> "body"%string -> get k kvs = get k out) /\
                (forall l, get "body" out = Some (VList l) ->
                   exists more, get "body" kvs = Some (VList (l ++ more))) /\
                ((forall l, get "body" out <> Some (VList l)) -> kvs = out))
      by (intros s0 E0; inversion E0; exists out;
          repeat split; auto; intros l Hl; exists []; now rewrite app_nil_r);
    destruct (truthy tok); [|eauto| |eauto];
    (destruct (cap_reached mp i); [eauto|]).
  - discriminate.
  - apply bind_Ret in E. destruct E as (data & s1 & _ & E).
    apply bind_Ret in E. destruct E as (tok' & s2 & _ & E).
    apply bind_Ret in E. destruct E as (body & s3 & B & E).
    apply lift_Ret in B. destruct B as [B _].
    simpl in B. destruct (get "body" out) as [b|] eqn:G; [|discriminate].
    inversion B. subst b.
    destruct body; try discriminate.
    apply bind_Ret in E. destruct E as (more & s4 & _ & E).
    apply bind_Ret in E. destruct E as (items & s5 & _ & E).
    simpl with_body in E. apply IH in E.
    destruct E as (kvs & -> & K & O & P & _).
    exists kvs. split; [reflexivity|]. split; [|split; [|split]].
    + rewrite K, keys_set, G. reflexivity.
    + intros k Hk. rewrite O by assumption.
      apply get_set_other. congruence.
    + intros l0 Hl0. inversion Hl0. subst l0.
      destruct (P (l ++ items)) as (more' & Hm); [apply get_set_same|].
      exists (items ++ more'). now rewrite app_assoc.
    + intro N. exfalso. now apply (N l).
Qed.

(** X3.  What [_make_req] returns is the first answer, a JSON object,
    with at most its body changed: same keys in the same order, same
    value under every key but ["body"]; a list body has grown at its end,
    any other body is returned as it came. *)
Theorem make_req_changes_body_only :
  forall fuel route params mp s v s',
    _make_req fuel route params mp s = (Ret v, s') ->
    exists first kvs,
      fst (urlopen (net s) (request_url (self s) route params))
        = inr (VDict first) /\
      v = VDict kvs /\
      keys kvs = keys first /\
      (forall k, k <> "body"%string -> get k kvs = get k first) /\
      (forall l, get "body" first = Some (VList l) ->
         exists more, get "body" kvs = Some (VList (l ++ more))) /\
      ((forall l, get "body" first <> Some (VList l)) -> kvs = first).
Proof.
  intros fuel route params mp s v s' E. unfold _make_req in E.
  apply bind_Ret in E. destruct E as (api & s1 & A & E).
  unfold get_self in A. inversion A. subst api s1.
  apply bind_Ret in E. destruct E as (out & s2 & F & E).
  rewrite fetch_eq in F.
  destruct (fst (urlopen (net s) (request_url (self s) route params)))
    as [e|out'] eqn:U; inversion F. subst out'.
  apply bind_Ret in E. destruct E as (tok & s3 & G & E).
  apply lift_Ret in G. destruct G as [G ->].
  destruct out as [| | | | |first]; try discriminate.
  apply paginate_shape in E. destruct E as (kvs & Hv & K & O & P & N).
  exists first, kvs. repeat (split; [assumption || reflexivity|]). exact N.
Qed.

Lemma paginate_breaks :
  forall pages fuel req0 i out acc tok s e,
    breaks (net s) req0 tok pages e ->
    Forall has_records pages ->
    get "body" out = Some (VList acc) ->
    (length pages < fuel)%nat ->
    exists s',
      paginate fuel req0 None i (VDict out) tok s = (Raise e, s') /\
      length (sent s') = (length (sent s) + S (length pages))%nat.
Proof.
  induction pages as [|p ps IH]; intros fuel req0 i out acc tok s e Br R B Lf;
    (destruct fuel as [|fuel]; [simpl in Lf; lia|]);
    rewrite paginate_eq; simpl in Br.
  - destruct Br as [T U]. rewrite T.
    change (cap_reached None i) with false. cbv iota.
    unfold bind at 1. rewrite fetch_eq, U.
    eexists. split; [reflexivity|]. simpl. rewrite length_app. simpl. lia.
  - destruct Br as (T & U & Br). rewrite T.
    change (cap_reached None i) with false. cbv iota.
    inversion R as [|? ? [l Hl] R']. subst.
    unfold bind at 1. rewrite fetch_eq, U.
    rewrite bind_lift, py_get_token.
    rewrite bind_lift. simpl py_item at 1. rewrite B.
    rewrite bind_lift. simpl py_item at 1. rewrite Hl.
    rewrite bind_lift. simpl py_iter. simpl with_body.
    edestruct (IH fuel req0 (i + 1) (set "body" (VList (acc ++ l)) out)
                 (acc ++ l) (token p)
                 {| self := self s;
                    net := snd (urlopen (net s) (next_url req0 tok));
                    sent := sent s ++ [next_url req0 tok] |} e)
      as (s' & E & L); simpl; auto.
    + apply get_set_same.
    + simpl in Lf. lia.
    + exists s'. split; [exact E|]. rewrite L. simpl.
      rewrite length_app. simpl. lia.
Qed.

(** X4.  Transport failures are not caught.  A first request that
    fails ends the call with that exception after the one request; a
    continuation request that fails ends it with that exception too, and
    the pages merged so far are not returned. *)
Theorem make_req_propagates_transport_errors :
  (forall fuel route params mp s e,
     fst (urlopen (net s) (request_url (self s) route params)) = inl e ->
     _make_req fuel route params mp s =
       (Raise e,
        {| self := self s;
           net := snd (urlopen (net s) (request_url (self s) route params));
           sent := sent s ++ [request_url (self s) route params] |}))
  /\
  (forall fuel route params s first rest e,
     let req0 := request_url (self s) route params in
     fst (urlopen (net s) req0) = inr (VDict first) ->
     breaks (snd (urlopen (net s) req0)) req0 (token first) rest e ->
     Forall has_records (first :: rest) ->
     (length rest < fuel)%nat ->
     exists s',
       _make_req fuel route params None s = (Raise e, s') /\
       length (sent s') = (length (sent s) + length rest + 2)%nat).
Proof.
  split.
  - intros fuel route params mp s e U.
    unfold _make_req. unfold bind at 1. unfold get_self.
    unfold bind at 1. now rewrite fetch_eq, U.
  - intros fuel route params s first rest e req0 U Br R Lf.
    inversion R as [|? ? [l Hl] R']. subst.
    unfold _make_req. unfold bind at 1. unfold get_self.
    unfold bind at 1. rewrite fetch_eq. fold req0. rewrite U.
    rewrite bind_lift, py_get_token.
    edestruct (@paginate_breaks rest fuel req0 1 first l (token first)
                 {| self := self s; net := snd (urlopen (net s) req0);
                    sent := sent s ++ [req0] |} e)
      as (s' & E & L); simpl; auto.
    exists s'. split; [exact E|]. rewrite L. simpl.
    rewrite length_app. simpl. lia.
Qed.

(** X5.  A cap below 1 other than 0 is a cap of one page: the call is
    the same computation as with [max_pages=1]. *)
Theorem make_req_negative_cap_is_one_page :
  forall fuel route params m s,
    m <> 0 -> m <= 1 ->
    _make_req fuel route params (Some m) s =
    _make_req fuel route params (Some 1) s.
Proof.
  intros fuel route params m s Hm Hle. unfold _make_req.
  apply bind_ext. intros api s1. apply bind_ext. intros out s2.
  apply bind_ext. intros tok s3.
  rewrite (paginate_eq _ _ (Some m)), (paginate_eq _ _ (Some 1)).
  destruct (truthy tok); [|reflexivity].
  unfold cap_reached.
  replace (m =? 0) with false by (symmetry; apply Z.eqb_neq; lia).
  replace (m <=? 1) with true by (symmetry; apply Z.leb_le; lia).
  reflexivity.
Qed.

(** X6.  A cap of at least the number of pages on offer does not cut
    anything: the answer is the first envelope (same keys, same value
    under every key but ["body"]) whose body is the list of the records
    [bodies] of all the pages in page order, after one request per page,
    as without a cap. *)
Theorem make_req_roomy_cap_merges_all :
  forall fuel route params s first rest (bodies : list (list value)) m,
    let req0 := request_url (self s) route params in
    emits (net s) req0 first rest ->
    Forall2 (fun page l => get "body" page = Some (VList l))
      (first :: rest) bodies ->
    Z.of_nat (length (first :: rest)) <= m ->
    (length rest <= fuel)%nat ->
    exists s' kvs,
      _make_req fuel route params (Some m) s = (Ret (VDict kvs), s') /\
      get "body" kvs = Some (VList (concat bodies)) /\
      keys kvs = keys first /\
      (forall k, k <> "body"%string -> get k kvs = get k first) /\
      sent s' = sent s ++ req0 :: next_urls req0 (token first) rest.
Proof.
  intros fuel route params s first rest bodies m req0 E HB Hm Lf.
  destruct (bodies_records HB) as [R MB].
  assert (B1 : exists b, get "body" first = Some b).
  { inversion HB. subst. eauto. }
  destruct B1 as [b1 B1].
  assert (Lr : forall tok, length (next_urls req0 tok rest) = length rest).
  { clear. induction rest as [|p ps IH]; intro tok; simpl; auto. }
  destruct (@make_req_follows RT (length rest) fuel route params (Some m) s
              first rest E R) as (s' & Q & _ & Hn); auto.
  - intros j Hj. unfold cap_reached. simpl length in Hm.
    replace (m <=? 1 + Z.of_nat j) with false
      by (symmetry; apply Z.leb_gt; lia).
    apply andb_false_r.
  - intro; lia.
  - rewrite firstn_all2 in Q by (simpl; lia). rewrite MB in Q.
    destruct (@with_body_list first b1 (concat bodies) B1)
      as (kvs & W & G & K & O).
    exists s', kvs. rewrite Q, W, Hn. fold req0.
    rewrite !firstn_all2 by (simpl; rewrite ?Lr; lia). auto 6.
Qed.

End PaginatorShape.

(** * The accessors *)

Section Accessors.

Context {RT : Runtime}.

Lemma project_spec (key : string) :
  forall items xs,
    project key items = Ret xs <->
    Forall2 (fun i x => py_item i key = Ret x) items xs.
Proof.
  induction items as [|i items IH]; intros xs; simpl.
  - split; intro H; inversion H; constructor.
  - split.
    + destruct (py_item i key) as [x| |] eqn:E; try discriminate. simpl.
      destruct (project key items) as [ys| |] eqn:P; try discriminate.
      simpl. intro H. inversion H. subst. constructor; [assumption|].
      now apply IH.
    + intro H. inversion H as [|? x ? ys Hx Hys]. subst.
      rewrite Hx. simpl. apply IH in Hys. now rewrite Hys.
Qed.

Lemma project_first_error (key : string) (i : value) (post : list value)
    (e : exn) :
  forall pre,
    Forall (fun j => exists x, py_item j key = Ret x) pre ->
    py_item i key = Raise e ->
    project key (pre ++ i :: post) = Raise e.
Proof.
  induction pre as [|j pre IH]; intros F E; simpl.
  - now rewrite E.
  - inversion F as [|? ? [x Hx] F']. subst. rewrite Hx. simpl.
    now rewrite IH.
Qed.

(** the tail shared by the two list accessors *)
Lemma projected_listing (key : string) (listing : M value) (s s1 : state)
    (envelope body : value) (items : list value) :
  listing s = (Ret envelope, s1) ->
  py_item envelope "body" = Ret body ->
  py_iter body = Ret items ->
  bind listing (fun r =>
  bind (lift (py_item r "body")) (fun b =>
  bind (lift (py_iter b)) (fun l => lift (project key l)))) s =
  (project key items, s1).
Proof.
  intros L B I. unfold bind at 1. rewrite L.
  rewrite bind_lift, B, bind_lift, I. reflexivity.
Qed.

(** X7.  [get_device_addresses] sends what [get_devices] sends and
    returns the [name] of each listed device, in the order of the listing;
    if a device has no [name] the call ends with the error of the first
    such device and returns no partial list. *)
Theorem get_device_addresses_projects_names :
  forall fuel folder s s1 devices body items,
    get_devices fuel folder s = (Ret devices, s1) ->
    py_item devices "body" = Ret body ->
    py_iter body = Ret items ->
    (forall names,
       Forall2 (fun d a => py_item d "name" = Ret a) items names ->
       get_device_addresses fuel folder s = (Ret names, s1) /\
       length names = length items)
    /\
    (forall pre d post e,
       items = pre ++ d :: post ->
       Forall (fun j => exists a, py_item j "name" = Ret a) pre ->
       py_item d "name" = Raise e ->
       get_device_addresses fuel folder s = (Raise e, s1)).
Proof.
  intros fuel folder s s1 devices body items L B I.
  pose proof (@projected_listing "name" (get_devices fuel folder) s s1
                devices body items L B I) as P.
  fold (get_device_addresses fuel folder) in P. split.
  - intros names F. split.
    + rewrite P. now apply project_spec in F as ->.
    + symmetry. eapply Forall2_length; eauto.
  - intros pre d post e -> F E. rewrite P.
    now rewrite (@project_first_error "name" d post e pre F E).
Qed.

(** X8.  [get_folder_slugs] sends what [get_folders] sends and returns
    the [slug] of each folder in the order of the answer; a folder without
    [slug] ends the call with the error of the first such folder. *)
Theorem get_folder_slugs_projects_slugs :
  forall fuel s s1 folders body items,
    get_folders fuel s = (Ret folders, s1) ->
    py_item folders "body" = Ret body ->
    py_iter body = Ret items ->
    (forall slugs,
       Forall2 (fun f g => py_item f "slug" = Ret g) items slugs ->
       get_folder_slugs fuel s = (Ret slugs, s1) /\
       length slugs = length items)
    /\
    (forall pre f post e,
       items = pre ++ f :: post ->
       Forall (fun j => exists g, py_item j "slug" = Ret g) pre ->
       py_item f "slug" = Raise e ->
       get_folder_slugs fuel s = (Raise e, s1)).
Proof.
  intros fuel s s1 folders body items L B I.
  pose proof (@projected_listing "slug" (get_folders fuel) s s1
                folders body items L B I) as P.
  fold (get_folder_slugs fuel) in P. split.
  - intros slugs F. split.
    + rewrite P. now apply project_spec in F as ->.
    + symmetry. eapply Forall2_length; eauto.
  - intros pre f post e -> F E. rewrite P.
    now rewrite (@project_first_error "slug" f post e pre F E).
Qed.

Lemma moves_projection (key : string) (listing : M value) :
  moves_cache_by eq listing ->
  moves_cache_by eq
    (bind listing (fun r =>
     bind (lift (py_item r "body")) (fun b =>
     bind (lift (py_iter b)) (fun l => lift (project key l))))).
Proof.
  intro H.
  apply moves_bind; auto; try (intros; congruence). intro r.
  apply moves_bind; auto; try (intros; congruence);
    [apply moves_lift; auto|]. intro b.
  apply moves_bind; auto; try (intros; congruence);
    [apply moves_lift; auto|]. intro l.
  apply moves_lift; auto.
Qed.

Lemma keeps_client {A} (m : M A) (s : state) :
  moves_cache_by eq m -> self (snd (m s)) = self s.
Proof. intro H. destruct (H s) as [E C]. symmetry. now apply self_ext. Qed.

(** X9.  No accessor touches the client object: after any of them,
    whatever it returned or raised, location, key and cache are as
    before. *)
Theorem accessors_keep_the_client :
  forall fuel (s : state),
    self (snd (get_folders fuel s)) = self s /\
    self (snd (get_folder_slugs fuel s)) = self s /\
    (forall folder,
       self (snd (get_devices fuel folder s)) = self s /\
       self (snd (get_device_addresses fuel folder s)) = self s) /\
    (forall address, self (snd (get_device fuel address s)) = self s) /\
    (forall name sort dir start end_ limit mp,
       self (snd (get_readings fuel name sort dir start end_ limit mp s))
       = self s) /\
    (forall name ptype start end_ limit mp,
       self (snd (get_packets_by_device fuel name ptype start end_ limit mp s))
       = self s) /\
    (forall folder ptype start end_ limit mp,
       self (snd (get_packets_by_folder fuel folder ptype start end_ limit mp s))
       = self s).
Proof.
  intros fuel s.
  assert (Req : forall route params mp,
            moves_cache_by eq (_make_req fuel route params mp)).
  { intros. apply moves_make_req; auto. intros; congruence. }
  repeat split; intros; apply keeps_client;
    try apply Req;
    try (apply moves_projection; apply Req).
  apply moves_get_readings; auto. intros; congruence.
Qed.

End Accessors.

(** * Further properties of the identifier cache *)

Section CacheMore.

Context {RT : Runtime}.

Local Notation "'cache_of' s" := (_id_to_address_mapping (self s))
  (at level 10, s at level 9, only parsing).

Lemma get_dd_store_same (folder : string) (k : pykey) (a : string) (c : cache) :
  get folder (dd_store folder k a c) = Some (set k a (folder_map c folder)).
Proof.
  unfold dd_store, dd_item, folder_map.
  destruct (get folder c); now rewrite get_set_same.
Qed.

Lemma get_invert_None (a : string) :
  forall d : odict pykey string,
    get a (invert d) = None -> ~ In a (values d).
Proof.
  induction d as [|[k a'] d IH] using rev_ind; intros G Hin; [contradiction|].
  rewrite invert_snoc in G. unfold values in Hin. rewrite map_app in Hin.
  apply in_app_or in Hin.
  destruct (String.eqb a' a) eqn:E.
  - apply String.eqb_eq in E. subst a'. rewrite get_set_same in G. discriminate.
  - apply String.eqb_neq in E. rewrite get_set_other in G by assumption.
    destruct Hin as [Hin|[Hin|[]]]; [now apply IH | simpl in Hin; congruence].
Qed.

(** a miss of the forward lookup that is not a [None] id: the address is
    not among the cached addresses of the folder *)
Lemma cached_id_None_values (c : cache) (address folder : string) :
  cache_ok c ->
  cached_id c address folder = None ->
  ~ In address (values (folder_map c folder)).
Proof.
  intros Hok. unfold cached_id, folder_map.
  rewrite get_address_view by apply Hok.
  destruct (get folder c) as [inner|]; simpl; [|tauto].
  intro G. apply get_invert_None.
  destruct (invert inner) as [|p fm] eqn:I; [reflexivity | exact G].
Qed.

(** storing a fresh address makes it the answer of the forward lookup *)
Lemma store_then_cached_id (c : cache) (folder a : string) (k : pykey) :
  cache_ok c ->
  ~ In a (values (folder_map c folder)) ->
  cached_id (dd_store folder k a c) a folder = Some k.
Proof.
  intros Hok Fresh. apply lookup_cached_id. unfold lookup.
  rewrite get_address_view by apply (cache_ok_store folder k a Hok).
  rewrite get_dd_store_same. simpl.
  apply In_get_invert.
  - intros n' Hin. apply In_set in Hin. destruct Hin as [Hin|[E _]]; [|exact E].
    exfalso. apply Fresh. unfold values.
    change a with (snd (n', a)). now apply in_map.
  - apply get_In. apply get_set_same.
Qed.

Lemma probe_device_cache_ok (fuel : nat) (id : Z) (folder : string)
    (i : value) (s : state) :
  cache_ok (cache_of s) ->
  cache_ok (cache_of (snd (probe_device fuel id folder i s))).
Proof.
  apply (@moves_probe_device RT (fun c c' => cache_ok c -> cache_ok c')); auto.
  - intro c. apply cache_ok_touch.
  - intros c k v. apply cache_ok_store.
Qed.

Lemma probe_device_found (fuel : nat) (id : Z) (folder : string) (i : value)
    (s s' : state) (a : string) :
  probe_device fuel id folder i s = (Ret (Some a), s') ->
  py_item i "name" = Ret (VStr a) /\
  already_probed (cache_of s) folder (VStr a) = false /\
  cache_of s' = dd_store folder (KInt id) a (cache_of s).
Proof.
  unfold probe_device. intro E.
  apply bind_Ret in E. destruct E as (v & s1 & N & E).
  apply lift_Ret in N. destruct N as [N ->].
  apply bind_Ret in E. destruct E as (api & s2 & A & E).
  unfold get_self in A. inversion A. subst api s2.
  destruct (already_probed (cache_of s) folder v) eqn:P;
    [unfold ret in E; discriminate|].
  apply bind_Ret in E. destruct E as (resp & s3 & G & E).
  assert (F : self s3 = self s).
  { pose proof (@keeps_client RT _
                  (get_readings fuel v "measured_at" "asc" None None 1 (Some 1))
                  s) as K.
    rewrite G in K. apply K. apply moves_get_readings; auto.
    intros; congruence. }
  apply bind_Ret in E. destruct E as (kv & s4 & I & E).
  apply lift_Ret in I. destruct I as [I ->].
  destruct v; try (unfold raise in E; discriminate).
  apply bind_Ret in E. destruct E as (k & s5 & S & E).
  rewrite store_eq in S. destruct (py_key kv) as [k'| |]; try discriminate.
  inversion S. subst k' s5.
  destruct (keqb k (KInt id)) eqn:K; unfold ret in E; inversion E. subst.
  apply keqb_eq in K. subst k. simpl. rewrite F. auto.
Qed.

Lemma probe_devices_found (fuel : nat) (id : Z) (folder : string) :
  forall devices s s' a,
    probe_devices fuel id folder devices s = (Ret (Some a), s') ->
    exists c d,
      In d devices /\
      py_item d "name" = Ret (VStr a) /\
      already_probed c folder (VStr a) = false /\
      cache_of s' = dd_store folder (KInt id) a c /\
      (cache_ok (cache_of s) -> cache_ok c).
Proof.
  induction devices as [|i rest IH]; intros s s' a E;
    [unfold probe_devices, ret in E; discriminate|].
  rewrite probe_devices_cons in E.
  pose proof (@probe_device_cache_ok fuel id folder i s) as Ok.
  destruct (probe_device fuel id folder i s) as [[[a0|]|e|] s2] eqn:PD;
    try discriminate.
  - inversion E. subst a0 s2.
    apply probe_device_found in PD. destruct PD as (N & P & C).
    exists (cache_of s), i.
    split; [now left|]. split; [exact N|]. split; [exact P|].
    split; [exact C | auto].
  - apply IH in E. destruct E as (c & d & Hin & N & P & C & K).
    exists c, d.
    split; [now right|]. split; [exact N|]. split; [exact P|].
    split; [exact C|]. intro H. apply K. now apply Ok.
Qed.

(** X10.  A reverse lookup that returns an address leaves the pair in
    the cache, so the same lookup repeated is answered at once (for a
    non-empty address), without any request.  When the answer did not come
    from the cache, it is the [name] of a device of the folder's listing. *)
Theorem reverse_lookup_is_remembered :
  forall fuel id folder (s s' : state) a,
    address_from_decentlab_id fuel id folder s = (Ret a, s') ->
    lookup (cache_of s') folder (KInt id) = Some a /\
    (a <> ""%string ->
     forall fuel', address_from_decentlab_id fuel' id folder s' = (Ret a, s')) /\
    (cached_address (cache_of s) id folder = None ->
     exists devices s1 body items d,
       get_devices fuel folder s = (Ret devices, s1) /\
       py_item devices "body" = Ret body /\
       py_iter body = Ret items /\
       In d items /\
       py_item d "name" = Ret (VStr a)).
Proof.
  intros fuel id folder s s' a E.
  assert (L : lookup (cache_of s') folder (KInt id) = Some a /\
              (cached_address (cache_of s) id folder = None ->
               exists devices s1 body items d,
                 get_devices fuel folder s = (Ret devices, s1) /\
                 py_item devices "body" = Ret body /\
                 py_iter body = Ret items /\
                 In d items /\
                 py_item d "name" = Ret (VStr a))).
  { unfold address_from_decentlab_id in E.
    apply bind_Ret in E. destruct E as (api & s0 & A & E).
    unfold get_self in A. inversion A. subst api s0.
    destruct (cached_address (cache_of s) id folder) as [a0|] eqn:C.
    - unfold ret in E. inversion E. subst a0 s'. split; [|discriminate].
      unfold cached_address in C. unfold lookup.
      destruct (get folder (cache_of s)) as [inner|]; [|discriminate].
      destruct (nonempty inner); [|discriminate].
      destruct (get (KInt id) inner) as [x|]; [|discriminate].
      destruct (String.eqb x ""); congruence.
    - apply bind_Ret in E. destruct E as (devices & s1 & D & E).
      apply bind_Ret in E. destruct E as (body & s2 & B & E).
      apply lift_Ret in B. destruct B as [B ->].
      apply bind_Ret in E. destruct E as (items & s3 & I & E).
      apply lift_Ret in I. destruct I as [I ->].
      apply bind_Ret in E. destruct E as (found & s4 & P & E).
      destruct found as [a0|]; [|unfold raise in E; discriminate].
      unfold ret in E. inversion E. subst a0 s4.
      apply probe_devices_found in P.
      destruct P as (c & d & Hin & N & _ & Cs & _).
      split.
      + rewrite Cs. apply lookup_store_same.
      + intros _. exists devices, s1, body, items, d. auto. }
  destruct L as [L1 L2]. split; [exact L1|]. split; [|exact L2].
  intros Na fuel'. now apply reverse_hit.
Qed.

(** X11.  After a reverse lookup answered by probing, the forward lookup
    of the address it returned gives the id back from the cache, without
    any request: the cache works in both directions. *)
Theorem reverse_then_forward_is_cached :
  forall (cs : list call) (location key : string) (w : World)
         fuel id folder (s' : state) a,
    let s := run cs (fresh location key w) in
    cached_address (cache_of s) id folder = None ->
    address_from_decentlab_id fuel id folder s = (Ret a, s') ->
    forall fuel',
      decentlab_id_from_address fuel' a folder s' = (Ret (KInt id), s').
Proof.
  intros cs location key w fuel id folder s' a s Miss E fuel'.
  assert (Hok : cache_ok (cache_of s)) by apply cache_ok_run, cache_ok_fresh.
  unfold address_from_decentlab_id in E.
  apply bind_Ret in E. destruct E as (api & s0 & A & E).
  unfold get_self in A. inversion A. subst api s0. rewrite Miss in E.
  apply bind_Ret in E. destruct E as (devices & s1 & D & E).
  assert (F1 : self s1 = self s).
  { pose proof (make_req_self fuel (devices_route folder) [] None s) as F.
    unfold get_devices in D. now rewrite D in F. }
  apply bind_Ret in E. destruct E as (body & s2 & B & E).
  apply lift_Ret in B. destruct B as [B ->].
  apply bind_Ret in E. destruct E as (items & s3 & I & E).
  apply lift_Ret in I. destruct I as [I ->].
  apply bind_Ret in E. destruct E as (found & s4 & P & E).
  destruct found as [a0|]; [|unfold raise in E; discriminate].
  unfold ret in E. inversion E. subst a0 s4.
  apply probe_devices_found in P.
  destruct P as (c & d & _ & _ & Fresh & Cs & K).
  rewrite F1 in K. specialize (K Hok).
  unfold decentlab_id_from_address, bind, get_self. rewrite Cs.
  rewrite store_then_cached_id; auto.
  intro Hin. apply already_probed_spec in Hin. congruence.
Qed.

(** X12.  A forward lookup that returns an id is answered at once when
    repeated: same id, no request, nothing changed (provided the address
    was not cached under the id [None], which a reading without device id
    leaves behind). *)
Theorem forward_lookup_is_remembered :
  forall (cs : list call) (location key : string) (w : World)
         fuel address folder (s1 : state) k,
    let s := run cs (fresh location key w) in
    cached_id (cache_of s) address folder <> Some KNone ->
    decentlab_id_from_address fuel address folder s = (Ret k, s1) ->
    forall fuel',
      decentlab_id_from_address fuel' address folder s1 = (Ret k, s1).
Proof.
  intros cs location key w fuel address folder s1 k s NotNone E fuel'.
  assert (Hok : cache_ok (cache_of s)) by apply cache_ok_run, cache_ok_fresh.
  unfold decentlab_id_from_address in E.
  unfold bind at 1 in E. unfold get_self at 1 in E.
  destruct (cached_id (cache_of s) address folder) as [[|n|t]|] eqn:C;
    try congruence.
  - inversion E. subst. unfold decentlab_id_from_address, bind, get_self.
    now rewrite C.
  - inversion E. subst. unfold decentlab_id_from_address, bind, get_self.
    now rewrite C.
  - apply forward_miss in E. destruct E as (n & -> & Cs).
    unfold decentlab_id_from_address, bind, get_self. rewrite Cs.
    rewrite store_then_cached_id; auto.
    now apply cached_id_None_values.
Qed.

(** X13.  When every device of the listing is already among the cached
    addresses of the folder and the id is not cached, the reverse lookup
    raises its [ValueError] right after the listing: no device is probed
    and the cache is not touched. *)
Theorem cached_folder_is_not_probed_again :
  forall fuel id folder (s s1 : state) devices body items,
    cached_address (cache_of s) id folder = None ->
    get_devices fuel folder s = (Ret devices, s1) ->
    py_item devices "body" = Ret body ->
    py_iter body = Ret items ->
    Forall (fun d => exists v,
              py_item d "name" = Ret v /\
              already_probed (cache_of s) folder v = true) items ->
    address_from_decentlab_id fuel id folder s =
      (Raise (Raised ValueError (unable_msg id)), s1)
    /\ self s1 = self s.
Proof.
  intros fuel id folder s s1 devices body items Miss D B I F.
  assert (F1 : self s1 = self s).
  { pose proof (make_req_self fuel (devices_route folder) [] None s) as G.
    unfold get_devices in D. now rewrite D in G. }
  split; [|exact F1].
  assert (P : probe_devices fuel id folder items s1 = (Ret None, s1)).
  { rewrite <- F1 in F. clear - F.
    induction F as [|d rest (v & N & A) F IH]; [reflexivity|].
    rewrite probe_devices_cons.
    now rewrite (@probe_device_skips RT fuel id folder d v s1 N A). }
  unfold address_from_decentlab_id. unfold bind at 1. unfold get_self at 1.
  rewrite Miss. unfold bind at 1. rewrite D.
  rewrite bind_lift, B, bind_lift, I.
  unfold bind at 1. rewrite P. reflexivity.
Qed.

(** X14.  A forward lookup that misses the cache and gets a device
    record without continuation token sends exactly one request, for the
    lower-cased address.  If the serial number is there and is an integer
    it is returned and cached under the address as it was passed;
    otherwise the error of the metadata access is raised and the cache is
    left as it was. *)
Theorem forward_miss_fetches_the_device :
  forall fuel address folder (s : state) env device,
    let url := request_url (self s) (device_route address) [] in
    cached_id (cache_of s) address folder = None ->
    fst (urlopen (net s) url) = inr (VDict env) ->
    truthy (token env) = false ->
    get "body" env = Some device ->
    (forall n,
       and_then (seriennummer device) py_int = Ret n ->
       decentlab_id_from_address fuel address folder s =
         (Ret (KInt n),
          {| self := {| api_location := api_location (self s);
                        api_key := api_key (self s);
                        _id_to_address_mapping :=
                          dd_store folder (KInt n) address (cache_of s) |};
             net := snd (urlopen (net s) url);
             sent := sent s ++ [url] |}))
    /\
    (forall e,
       and_then (seriennummer device) py_int = Raise e ->
       decentlab_id_from_address fuel address folder s =
         (Raise e,
          {| self := self s;
             net := snd (urlopen (net s) url);
             sent := sent s ++ [url] |})).
Proof.
  intros fuel address folder s env device url Miss U T B.
  assert (G : get_device fuel address s =
              (Ret (VDict env),
               {| self := self s; net := snd (urlopen (net s) url);
                  sent := sent s ++ [url] |})).
  { unfold get_device. apply make_req_capped_first; auto.
    intro T'. rewrite T in T'. discriminate. }
  split.
  - intros n Hn. unfold decentlab_id_from_address.
    unfold bind at 1. unfold get_self at 1. rewrite Miss.
    unfold bind at 1. rewrite G.
    rewrite bind_lift. simpl py_item. rewrite B.
    rewrite bind_lift, Hn. rewrite store_eq. reflexivity.
  - intros e He. unfold decentlab_id_from_address.
    unfold bind at 1. unfold get_self at 1. rewrite Miss.
    unfold bind at 1. rewrite G.
    rewrite bind_lift. simpl py_item. rewrite B.
    rewrite bind_lift, He. reflexivity.
Qed.

End CacheMore.

(** * The client object: construction, equality, printing *)

Section ClientObject.

Context {RT : Runtime}.











Lemma exec_endpoint (cl : call) (s : state) :
  same_endpoint (self s) (self (exec cl s)).
Proof.
  destruct cl as [fuel address folder | fuel id folder | fuel route params mp];
    simpl.
  - apply (@moves_decentlab_id_from_address RT (fun _ _ => True)); auto.
  - apply (@moves_address_from_decentlab_id RT (fun _ _ => True)); auto.
  - apply (@moves_make_req RT (fun _ _ => True)); auto.
Qed.

Lemma run_endpoint (cs : list call) :
  forall s : state, same_endpoint (self s) (self (run cs s)).
Proof.
  unfold run. induction cs as [|cl cs IH]; intro s; simpl.
  - apply same_endpoint_refl.
  - eapply same_endpoint_trans; [apply exec_endpoint | apply IH].
Qed.

(** X16.  [__eq__] compares key and location and nothing else: it is
    [True] exactly for a client with the same key and location, [False]
    for anything that is not a client, and whatever a client has cached in
    a session it is still equal to the client it was before. *)
Theorem eq_ignores_the_cache :
  (forall a b : ElementApi,
     __eq__ a (Client b) = true <->
     api_key a = api_key b /\ api_location a = api_location b) /\
  (forall (a : ElementApi) (v : value), __eq__ a (Plain v) = false) /\
  (forall (cs : list call) (s : state),
     __eq__ (self (run cs s)) (Client (self s)) = true /\
     __eq__ (self s) (Client (self (run cs s))) = true).
Proof.
  assert (Spec : forall a b : ElementApi,
            __eq__ a (Client b) = true <->
            api_key a = api_key b /\ api_location a = api_location b).
  { intros a b. unfold __eq__. rewrite andb_true_iff, !String.eqb_eq.
    reflexivity. }
  split; [exact Spec|]. split; [reflexivity|].
  intros cs s. destruct (run_endpoint cs s) as [L K].
  split; apply Spec; split; congruence.
Qed.

Lemma length_repeat_star (n : nat) :
  String.length (String.concat "" (repeat "*"%string n)) = n.
Proof.
  induction n as [|n IH]; [reflexivity|].
  simpl. destruct n as [|n]; [reflexivity|].
  simpl in *. now rewrite IH.
Qed.

Lemma length_substring (s : string) :
  forall n m : nat,
    String.length (substring n m s) = Nat.min m (String.length s - n).
Proof.
  induction s as [|c s IH]; intros [|n] [|m]; simpl; auto;
    rewrite IH; try rewrite Nat.sub_0_r; reflexivity.
Qed.

Lemma substring_short (s : string) :
  forall m : nat, (String.length s <= m)%nat -> substring 0 m s = s.
Proof.
  induction s as [|c s IH]; intros [|m] L; simpl in *; auto; try lia.
  rewrite IH by lia. reflexivity.
Qed.

(** X17.  A key of at most three characters is not redacted at all: it
    is printed in full. *)
Theorem repr_prints_short_keys :
  forall location key : string,
    (String.length key <= 3)%nat ->
    redacted key = key /\
    __repr__ (__init__ location key) =
      ("ElementApi(api_location=" ++ repr_str (strip "/" location) ++
       ", api_key=" ++ key ++ ")")%string.
Proof.
  intros location key L.
  assert (R : redacted key = key).
  { unfold redacted, last3, str_mul.
    replace (Z.to_nat (Z.of_nat (String.length key) - 3)) with 0%nat by lia.
    replace (String.length key - 3)%nat with 0%nat by lia.
    simpl. now apply substring_short. }
  split; [exact R|]. unfold __repr__, __init__. simpl api_key.
  simpl api_location. rewrite R. reflexivity.
Qed.

(** X18.  The redacted key is as long as the key: one star for each
    character that is hidden, so the printed client shows how long the
    key is. *)
Theorem redacted_keeps_length :
  forall key : string, String.length (redacted key) = String.length key.
Proof.
  intro key. unfold redacted, last3, str_mul.
  rewrite length_append, length_repeat_star, length_substring. lia.
Qed.

End ClientObject.

Section PaginatorExtend.

Context {RT : Runtime}.


End PaginatorExtend.
(** * More worked examples *)

(** * What a lookup may rewrite in the cache *)

Section CacheRewrites.

Context {RT : Runtime}.

Local Notation "'cache_of' s" := (_id_to_address_mapping (self s))
  (at level 10, s at level 9, only parsing).














End CacheRewrites.

Module MoreExamples.

Import Demo.

(** X1 on the three-page source with [max_pages=2]. *)
Lemma make_req_cap_bounds_requests_witness :
  fst (@_make_req scripted 1 "tags/f/devices" [] (Some 2) sP) <> OutOfFuel /\
  (length (sent (snd (@_make_req scripted 1 "tags/f/devices" [] (Some 2%Z) sP)))
   <= 0 + 2)%nat.
Proof.
  apply (@make_req_cap_bounds_requests scripted 1 "tags/f/devices" [] 2 sP);
    [discriminate | simpl; lia].
Defined.

(** X3 on the three-page source. *)
Lemma make_req_changes_body_only_witness :
  exists first kvs,
    fst (@urlopen scripted (net sP)
           (@request_url scripted (self sP) "tags/f/devices" []))
      = inr (VDict first) /\
    with_body (VDict page1) [VInt 1; VInt 2; VInt 3; VInt 4; VInt 5]
      = VDict kvs /\
    keys kvs = keys first /\
    (forall k, k <> "body"%string -> get k kvs = get k first) /\
    (forall l, get "body" first = Some (VList l) ->
       exists more, get "body" kvs = Some (VList (l ++ more))) /\
    ((forall l, get "body" first <> Some (VList l)) -> kvs = first).
Proof.
  apply (@make_req_changes_body_only scripted 2 "tags/f/devices" [] None sP
           (with_body (VDict page1) [VInt 1; VInt 2; VInt 3; VInt 4; VInt 5])
           (snd (@_make_req scripted 2 "tags/f/devices" [] None sP))).
  vm_compute. reflexivity.
Defined.

(** X4: an unknown route on the small server, and a source that times
    out on its third request. *)
Lemma make_req_propagates_transport_errors_witness :
  fst (@_make_req rt 0 "nowhere" [] None s0)
    = Raise (Transport "HTTP Error 404: Not Found")
  /\
  exists s' : @state scripted,
    @_make_req scripted 2 "tags/f/devices" [] None Demo2.sB
      = (Raise (Transport "timed out"), s') /\
    length (sent s') = (0 + 1 + 2)%nat.
Proof.
  destruct (@make_req_propagates_transport_errors scripted) as [_ B].
  destruct (@make_req_propagates_transport_errors rt) as [A _].
  split.
  - rewrite (A 0%nat "nowhere"%string [] None s0
               (Transport "HTTP Error 404: Not Found") eq_refl).
    reflexivity.
  - apply (B 2%nat "tags/f/devices"%string [] Demo2.sB page1 [page2]
             (Transport "timed out")).
    + reflexivity.
    + repeat split; reflexivity.
    + repeat constructor; eexists; reflexivity.
    + simpl. lia.
Defined.

(** X5 with [max_pages=-3]. *)
Lemma make_req_negative_cap_is_one_page_witness :
  @_make_req scripted 2 "tags/f/devices" [] (Some (-3)) sP =
  @_make_req scripted 2 "tags/f/devices" [] (Some 1) sP.
Proof.
  apply (@make_req_negative_cap_is_one_page scripted 2 "tags/f/devices" []
           (-3) sP); lia.
Defined.

(** X6 with [max_pages=7] on the three-page source: the body is
    [1; 2; 3; 4; 5] and three requests are sent. *)
Lemma make_req_roomy_cap_merges_all_witness :
  exists (s' : @state scripted) (kvs : list (string * value)),
    @_make_req scripted 2 "tags/f/devices" [] (Some 7) sP = (Ret (VDict kvs), s') /\
    get "body" kvs = Some (VList [VInt 1; VInt 2; VInt 3; VInt 4; VInt 5]) /\
    keys kvs = ["body"%string; "retrieve_after_id"%string] /\
    get "retrieve_after_id" kvs = Some (VStr "t1") /\
    sent s' =
      ["https://x/api/v1/tags/f/devices?&auth=abcdef123"%string;
       "https://x/api/v1/tags/f/devices?&auth=abcdef123&retrieve_after=t1"%string;
       "https://x/api/v1/tags/f/devices?&auth=abcdef123&retrieve_after=t2"%string].
Proof.
  assert (E : @emits scripted (net sP)
                (@request_url scripted (self sP) "tags/f/devices" [])
                page1 [page2; page3]).
  { repeat split; reflexivity. }
  assert (HB : Forall2 (fun page l => get "body" page = Some (VList l))
                 [page1; page2; page3]
                 [[VInt 1; VInt 2]; [VInt 3]; [VInt 4; VInt 5]]).
  { repeat constructor. }
  destruct (@make_req_roomy_cap_merges_all scripted 2 "tags/f/devices" [] sP
              page1 [page2; page3]
              [[VInt 1; VInt 2]; [VInt 3]; [VInt 4; VInt 5]] 7 E HB
              ltac:(simpl; lia) ltac:(simpl; lia))
    as (s' & kvs & Q & G & K & O & Hs).
  exists s', kvs. split; [exact Q|]. split; [exact G|]. split; [exact K|].
  split; [rewrite O; [reflexivity | discriminate]|].
  rewrite Hs. vm_compute. reflexivity.
Defined.


(** X7: the addresses of folder [f], and folder [h] whose second device
    has no name. *)
Lemma get_device_addresses_projects_names_witness :
  @get_device_addresses rt 0 "f" s0 =
    (Ret [VStr "D1"; VStr "D2"; VStr "D3"], snd (@get_devices rt 0 "f" s0))
  /\
  fst (@get_device_addresses Demo2.rt 0 "h" Demo2.s0) = Raise (Builtin KeyError).
Proof.
  split.
  - apply (proj1 (@get_device_addresses_projects_names rt 0 "f" s0
                    (snd (@get_devices rt 0 "f" s0))
                    (envelope (VList [device "D1"; device "D2"; device "D3"]))
                    (VList [device "D1"; device "D2"; device "D3"])
                    [device "D1"; device "D2"; device "D3"]
                    ltac:(vm_compute; reflexivity) eq_refl eq_refl)).
    repeat constructor.
  - rewrite (proj2 (@get_device_addresses_projects_names Demo2.rt 0 "h" Demo2.s0
                      (snd (@get_devices Demo2.rt 0 "h" Demo2.s0))
                      (envelope (VList [device "D1"; VDict [("slug", VStr "d9")];
                                        device "D2"]))
                      (VList [device "D1"; VDict [("slug", VStr "d9")];
                              device "D2"])
                      [device "D1"; VDict [("slug", VStr "d9")]; device "D2"]
                      ltac:(vm_compute; reflexivity) eq_refl eq_refl)
               [device "D1"] (VDict [("slug", VStr "d9")]) [device "D2"]
               (Builtin KeyError) eq_refl).
    + reflexivity.
    + repeat constructor. eexists. reflexivity.
    + reflexivity.
Defined.

(** X8: the slugs of the two folders. *)
Lemma get_folder_slugs_projects_slugs_witness :
  @get_folder_slugs Demo2.rt 0 Demo2.s0 =
    (Ret [VStr "f"; VStr "g"], snd (@get_folders Demo2.rt 0 Demo2.s0)).
Proof.
  apply (proj1 (@get_folder_slugs_projects_slugs Demo2.rt 0 Demo2.s0
                  (snd (@get_folders Demo2.rt 0 Demo2.s0))
                  (envelope (VList [Demo2.folder "f"; Demo2.folder "g"]))
                  (VList [Demo2.folder "f"; Demo2.folder "g"])
                  [Demo2.folder "f"; Demo2.folder "g"]
                  ltac:(vm_compute; reflexivity) eq_refl eq_refl)).
  repeat constructor.
Defined.

(** X10: resolving 22 in folder [f], then once more. *)
Lemma reverse_lookup_is_remembered_witness :
  let s' := snd (@address_from_decentlab_id rt 0 22 "f" s0) in
  lookup (_id_to_address_mapping (self s')) "f" (KInt 22) = Some "D2"%string /\
  @address_from_decentlab_id rt 5 22 "f" s' = (Ret "D2"%string, s').
Proof.
  intro s'.
  destruct (@reverse_lookup_is_remembered rt 0 22 "f" s0 s' "D2"
              ltac:(vm_compute; reflexivity)) as (L & R & _).
  split; [exact L|]. apply R. discriminate.
Defined.

(** X11: resolving 22 in folder [f], then asking for the id of [D2]. *)
Lemma reverse_then_forward_is_cached_witness :
  let s' := snd (@address_from_decentlab_id rt 0 22 "f" s0) in
  @decentlab_id_from_address rt 5 "D2" "f" s' = (Ret (KInt 22), s').
Proof.
  intro s'.
  apply (@reverse_then_forward_is_cached rt [] "https://x/api/v1/" "abcdef123"
           tt 0%nat 22 "f"%string s' "D2"%string);
    vm_compute; reflexivity.
Defined.

(** X12: the id of [DEC1], asked twice. *)
Lemma forward_lookup_is_remembered_witness :
  let s1 := snd (@decentlab_id_from_address rt 0 "DEC1" "f" s0) in
  @decentlab_id_from_address rt 5 "DEC1" "f" s1 = (Ret (KInt 11), s1).
Proof.
  intro s1.
  apply (@forward_lookup_is_remembered rt [] "https://x/api/v1/" "abcdef123"
           tt 0%nat "DEC1"%string "f"%string s1 (KInt 11)).
  - vm_compute. discriminate.
  - vm_compute. reflexivity.
Defined.

(** X13: after a failed search has cached the three devices of folder
    [f], a search for another unknown id sends the listing only. *)
Lemma cached_folder_is_not_probed_again_witness :
  let s := snd (@address_from_decentlab_id rt 0 44 "f" s0) in
  @address_from_decentlab_id rt 0 55 "f" s =
    (Raise (Raised ValueError (unable_msg 55)), snd (@get_devices rt 0 "f" s))
  /\ self (snd (@get_devices rt 0 "f" s)) = self s.
Proof.
  intro s.
  apply (@cached_folder_is_not_probed_again rt 0 55 "f" s
           (snd (@get_devices rt 0 "f" s))
           (envelope (VList [device "D1"; device "D2"; device "D3"]))
           (VList [device "D1"; device "D2"; device "D3"])
           [device "D1"; device "D2"; device "D3"]);
    try (vm_compute; reflexivity).
  repeat constructor.
  - exists (VStr "D1"). split; vm_compute; reflexivity.
  - exists (VStr "D2"). split; vm_compute; reflexivity.
  - exists (VStr "D3"). split; vm_compute; reflexivity.
Defined.

(** X14: the id of [DEC1] on a fresh client. *)
Lemma forward_miss_fetches_the_device_witness :
  fst (@decentlab_id_from_address rt 0 "DEC1" "f" s0) = Ret (KInt 11) /\
  sent (snd (@decentlab_id_from_address rt 0 "DEC1" "f" s0)) =
    ["https://x/api/v1/devices/dec1?&auth=abcdef123"%string] /\
  _id_to_address_mapping (self (snd (@decentlab_id_from_address rt 0 "DEC1" "f" s0)))
    = [("f"%string, [(KInt 11, "DEC1"%string)])].
Proof.
  destruct (@forward_miss_fetches_the_device rt 0 "DEC1" "f" s0
              [("body",
                VDict [("fields",
                        VDict [("gerateinformation",
                                VDict [("seriennummer", VStr "11")])])]);
               ("ok", VBool true); ("status", VInt 200)]
              (VDict [("fields",
                       VDict [("gerateinformation",
                               VDict [("seriennummer", VStr "11")])])])
              eq_refl eq_refl eq_refl eq_refl) as [A _].
  rewrite (A 11 eq_refl). repeat split; vm_compute; reflexivity.
Defined.


(** X16: the client that has resolved 22 still equals the fresh one. *)
Lemma eq_ignores_the_cache_witness :
  __eq__ (self (@run rt [Reverse 0 22 "f"] s0)) (Client (self s0)) = true /\
  __eq__ (self s0) (Client (__init__ "https://x/api/v1" "abcdef123")) = true.
Proof.
  destruct (@eq_ignores_the_cache rt) as (Spec & _ & Sess).
  split.
  - apply (Sess [Reverse 0 22 "f"] s0).
  - apply Spec. split; reflexivity.
Defined.

(** X17: a key of two characters. *)
Lemma repr_prints_short_keys_witness :
  @__repr__ rt (__init__ "https://x/api/v1/" "ab") =
  "ElementApi(api_location='https://x/api/v1', api_key=ab)"%string.
Proof.
  apply (proj2 (@repr_prints_short_keys rt "https://x/api/v1/" "ab"
                  ltac:(simpl; lia))).
Defined.


(** In that state the reverse lookup of 22 does replace the entry: the
    probe of [D1] answers with the id 11, and [11 -> D1] takes the place
    of [11 -> DEC1]. *)
Lemma reverse_lookup_restores_a_probed_id :
  lookup (_id_to_address_mapping (self (@run rt [Forward 0 "DEC1" "f"] s0)))
    "f" (KInt 11) = Some "DEC1"%string /\
  fst (@address_from_decentlab_id rt 0 22 "f"
         (@run rt [Forward 0 "DEC1" "f"] s0)) = Ret "D2"%string /\
  lookup (_id_to_address_mapping
            (self (snd (@address_from_decentlab_id rt 0 22 "f"
                          (@run rt [Forward 0 "DEC1" "f"] s0)))))
    "f" (KInt 11) = Some "D1"%string.
Proof. repeat split; vm_compute; reflexivity. Qed.

End MoreExamples.
